(** * GFS retention logic of pg-backup (src/gfs.ts), shallow embedding

    The module [JSDate] models the fragment of ECMAScript [Date] that
    [getISOWeek] and [getMonthKey] use: time values are integers of
    milliseconds since the epoch, [None] stands for NaN, and every
    constructor ends in [TimeClip].  [GFS] embeds [classifyBackups] and
    [getBackupsToPrune]. *)

From Stdlib Require Import ZArith Lia List Bool String Ascii.
From Stdlib Require Import Sorting.Permutation Sorting.Sorted.
Import ListNotations.
Open Scope Z_scope.

Module JSDate.

(** A time value: [Some t] is [t] milliseconds since 1970-01-01T00:00Z,
    [None] is NaN. *)
Definition tv := option Z.

Definition msPerDay : Z := 86400000.
Definition maxTime : Z := 8640000000000000.

(** ECMAScript TimeClip (on integral arguments). *)
Definition TimeClip (t : Z) : tv :=
  if Z.abs t <=? maxTime then Some t else None.

(** Day number of a civil date (proleptic Gregorian, months 1..12). *)
Definition days_from_civil (y m d : Z) : Z :=
  let y' := if m <=? 2 then y - 1 else y in
  let era := y' / 400 in
  let yoe := y' - era * 400 in
  let mp := if 2 <? m then m - 3 else m + 9 in
  let doy := (153 * mp + 2) / 5 + d - 1 in
  let doe := yoe * 365 + yoe / 4 - yoe / 100 + doy in
  era * 146097 + doe - 719468.

(** Civil date (year, month 1..12, day 1..31) of a day number. *)
Definition civil_from_days (z : Z) : Z * Z * Z :=
  let z' := z + 719468 in
  let era := z' / 146097 in
  let doe := z' - era * 146097 in
  let yoe := (doe - doe / 1460 + doe / 36524 - doe / 146096) / 365 in
  let y := yoe + era * 400 in
  let doy := doe - (365 * yoe + yoe / 4 - yoe / 100) in
  let mp := (5 * doy + 2) / 153 in
  let d := doy - (153 * mp + 2) / 5 + 1 in
  let m := if mp <? 10 then mp + 3 else mp - 9 in
  (if m <=? 2 then y + 1 else y, m, d).

Definition Day (t : Z) : Z := t / msPerDay.
Definition TimeWithinDay (t : Z) : Z := t mod msPerDay.
Definition YearFromTime (t : Z) : Z := fst (fst (civil_from_days (Day t))).
(** ECMAScript months are 0..11. *)
Definition MonthFromTime (t : Z) : Z := snd (fst (civil_from_days (Day t))) - 1.
Definition DateFromTime (t : Z) : Z := snd (civil_from_days (Day t)).
Definition WeekDay (t : Z) : Z := (Day t + 4) mod 7.

(** ECMAScript MakeDay (month may overflow into the year) and MakeDate. *)
Definition MakeDay (year month date : Z) : Z :=
  let ym := year + month / 12 in
  let mn := month mod 12 in
  days_from_civil ym (mn + 1) 1 + date - 1.
Definition MakeDate (day time : Z) : Z := day * msPerDay + time.

Definition getUTCFullYear (d : tv) : option Z := option_map YearFromTime d.
Definition getUTCMonth (d : tv) : option Z := option_map MonthFromTime d.
Definition getUTCDate (d : tv) : option Z := option_map DateFromTime d.
Definition getUTCDay (d : tv) : option Z := option_map WeekDay d.

(** [Date.UTC(year, month, date)]: a year 0..99 means 1900..1999. *)
Definition Date_UTC (year month date : option Z) : tv :=
  match year, month, date with
  | Some y, Some m, Some dt =>
      let yr := if (0 <=? y) && (y <=? 99) then 1900 + y else y in
      TimeClip (MakeDate (MakeDay yr m dt) 0)
  | _, _, _ => None
  end.

(** [d.setUTCDate(date)]: the new time value of [d]. *)
Definition setUTCDate (d : tv) (date : option Z) : tv :=
  match d, date with
  | Some t, Some dt =>
      TimeClip (MakeDate (MakeDay (YearFromTime t) (MonthFromTime t) dt)
                         (TimeWithinDay t))
  | _, _ => None
  end.

(** [Math.ceil(((a - b) / 86400000 + 1) / 7)] on integral [a], [b]: the
    exact rational value is (a - b + 86400000) / (7 * 86400000), whose
    ceiling is taken here.  In the source the operands are below 2^53 and
    [a - b] is a multiple of a day, so the double arithmetic is exact up to
    the final division, whose rounding cannot cross an integer. *)
Definition ceil_div (p q : Z) : Z := - ((- p) / q).

Record ISOWeek := mkISOWeek { iso_year : option Z; iso_week : option Z }.

(** [getISOWeek(date)] of src/gfs.ts. *)
Definition getISOWeek (date : tv) : ISOWeek :=
  let d := Date_UTC (getUTCFullYear date) (getUTCMonth date) (getUTCDate date) in
  (* d.getUTCDay() || 7 : both 0 and NaN are falsy *)
  let dayNum := match getUTCDay d with
                | Some n => if n =? 0 then 7 else n
                | None => 7
                end in
  let d := setUTCDate d (option_map (fun x => x + 4 - dayNum) (getUTCDate d)) in
  let yearStart := Date_UTC (getUTCFullYear d) (Some 0) (Some 1) in
  let weekNum := match d, yearStart with
                 | Some a, Some b => Some (ceil_div (a - b + msPerDay) (7 * msPerDay))
                 | _, _ => None
                 end in
  mkISOWeek (getUTCFullYear d) weekNum.

(** [Date.UTC(y, m, d, h, mi, s)] for building concrete instants with a
    year outside 0..99. *)
Definition utc (y mo d h mi s : Z) : Z :=
  MakeDate (MakeDay y (mo - 1) d) (((h * 60 + mi) * 60 + s) * 1000).

End JSDate.

Module JSString.

(** The decimal digit [n] (0..9) as a character. *)
Definition digit (n : Z) : ascii := ascii_of_nat (48 + Z.to_nat n).

Fixpoint digits_aux (fuel : nat) (n : Z) (acc : string) : string :=
  match fuel with
  | O => acc
  | S f =>
      let acc' := String (digit (n mod 10)) acc in
      if n <? 10 then acc' else digits_aux f (n / 10) acc'
  end.

(** [Number.prototype.toString()] on an integral number; NaN prints as
    "NaN".  [Pos.size_nat] bounds the number of decimal digits. *)
Definition toString (x : option Z) : string :=
  match x with
  | None => "NaN"
  | Some n =>
      let fuel := Pos.size_nat (Z.to_pos (Z.abs n) ) in
      if n <? 0 then String "-" (digits_aux fuel (- n) EmptyString)
      else digits_aux fuel n EmptyString
  end.

(** [s.padStart(2, "0")]. *)
Definition padStart2 (s : string) : string :=
  match String.length s with
  | 0%nat => "00"
  | 1%nat => String "0" s
  | _ => s
  end.

(** Code-unit comparison of strings, as [<] on JavaScript strings; it
    also models [localeCompare] on the grouping keys. *)
Fixpoint str_cmp (s1 s2 : string) : comparison :=
  match s1, s2 with
  | EmptyString, EmptyString => Eq
  | EmptyString, String _ _ => Lt
  | String _ _, EmptyString => Gt
  | String c1 r1, String c2 r2 =>
      match N.compare (N_of_ascii c1) (N_of_ascii c2) with
      | Eq => str_cmp r1 r2
      | c => c
      end
  end.

Definition str_lt (s1 s2 : string) : Prop := str_cmp s1 s2 = Lt.

(** [a.localeCompare(b)] as a comparator result. *)
Definition localeCompare (a b : string) : Z :=
  match str_cmp a b with Lt => -1 | Eq => 0 | Gt => 1 end.

End JSString.

Import JSDate JSString.

(** [getMonthKey(date)] of src/gfs.ts. *)
Definition getMonthKey (date : tv) : string :=
  toString (getUTCFullYear date) ++ "-"
  ++ padStart2 (toString (option_map (fun m => m + 1) (getUTCMonth date))).

(** The key [`${year}-W${week.toString().padStart(2, "0")}`] of
    classifyBackups. *)
Definition weekKeyOf (w : ISOWeek) : string :=
  toString (iso_year w) ++ "-W" ++ padStart2 (toString (iso_week w)).

(** Chronological order of ISO (year, week) pairs; a NaN field is
    unordered. *)
Definition isoweek_lt (a b : ISOWeek) : Prop :=
  match a, b with
  | mkISOWeek (Some y1) (Some w1), mkISOWeek (Some y2) (Some w2) =>
      y1 < y2 \/ (y1 = y2 /\ w1 < w2)
  | _, _ => False
  end.

(** Chronological order of the UTC (year, month) of two instants. *)
Definition ym_lt (t1 t2 : Z) : Prop :=
  YearFromTime t1 < YearFromTime t2 \/
  (YearFromTime t1 = YearFromTime t2 /\ MonthFromTime t1 < MonthFromTime t2).

(** A year that prints with exactly four digits. *)
Definition four_digit (y : option Z) : bool :=
  match y with
  | Some y => (1000 <=? y) && (y <=? 9999)
  | None => false
  end.

Module GFS.

(** The fields of [BackupManifest] the retention logic reads: [timestamp]
    is the time value of [new Date(manifest.timestamp)], a valid instant. *)
Record BackupManifest := mkManifest { id : string; timestamp : Z }.

Inductive BackupTier := Daily | Weekly | Monthly | Prunable.

Record TieredBackup :=
  mkTiered { manifest : BackupManifest; tier : BackupTier; tierReason : string }.

Record GFSConfig :=
  mkConfig { enabled : bool; daily : nat; weekly : nat; monthly : nat }.

(** [new Date(m.timestamp).getTime()]. *)
Definition time (m : BackupManifest) : Z := timestamp m.

(** [Array.prototype.sort] with a comparator: the stable sort required by
    ECMAScript 2019, here as an insertion sort (for a consistent comparator
    every stable sort returns the same list). *)
Section Sort.
Context {A : Type} (cmp : A -> A -> Z).

Fixpoint insert (x : A) (l : list A) : list A :=
  match l with
  | [] => [x]
  | e :: r => if cmp x e <? 0 then x :: e :: r else e :: insert x r
  end.

Definition sort_by (l : list A) : list A :=
  fold_left (fun acc x => insert x acc) l [].
End Sort.

(** A [Set<string>] of identifiers; [add] appends, [has] is membership. *)
Definition mem (s : string) (l : list string) : bool := existsb (String.eqb s) l.

(** A [Map<string, BackupManifest[]>] in insertion order, and
    [if (!g.has(k)) g.set(k, []); g.get(k)!.push(m)]. *)
Definition Groups := list (string * list BackupManifest).

Fixpoint group_push (k : string) (m : BackupManifest) (g : Groups) : Groups :=
  match g with
  | [] => [(k, [m])]
  | (k', ms) :: r =>
      if String.eqb k k' then (k', ms ++ [m]) :: r else (k', ms) :: group_push k m r
  end.

Definition group_by (key : BackupManifest -> string) (l : list BackupManifest) : Groups :=
  fold_left (fun g m => group_push (key m) m g) l [].

(** For each group, the first element of the group sorted oldest first
    (a group is never empty, so the [[]] branch is never taken). *)
Definition candidates (g : Groups) : list (string * BackupManifest) :=
  flat_map (fun kb =>
              match sort_by (fun a b => time a - time b) (snd kb) with
              | m :: _ => [(fst kb, m)]
              | [] => []
              end) g.

(** [candidates.sort((a, b) => b.key.localeCompare(a.key))]. *)
Definition sort_keys_desc (c : list (string * BackupManifest)) :=
  sort_by (fun a b => localeCompare (fst b) (fst a)) c.

(** The loop [for (const {key, manifest} of cands) { if (n >= limit) break;
    result.push(...); assigned.add(manifest.id); n++; }]. *)
Fixpoint assign_loop (t : BackupTier) (pre : string) (limit : nat)
    (cands : list (string * BackupManifest)) (n : nat)
    (st : list TieredBackup * list string) : list TieredBackup * list string :=
  match cands with
  | [] => st
  | (k, m) :: rest =>
      if (limit <=? n)%nat then st
      else assign_loop t pre limit rest (S n)
             (fst st ++ [mkTiered m t (pre ++ k)], snd st ++ [id m])
  end.

Definition weekKey (m : BackupManifest) : string :=
  weekKeyOf (getISOWeek (Some (timestamp m))).
Definition monthKey (m : BackupManifest) : string :=
  getMonthKey (Some (timestamp m)).

Definition unassigned (assigned : list string) (l : list BackupManifest) :=
  filter (fun m => negb (mem (id m) assigned)) l.

(** [classifyBackups(manifests, config)].  Phase 1's loop pushes
    [sorted[i]] for [i < Math.min(config.daily, sorted.length)], that is
    the first elements of [sorted]. *)
Definition classifyBackups (manifests : list BackupManifest) (config : GFSConfig)
  : list TieredBackup :=
  match manifests with
  | [] => []
  | _ =>
    let sorted := sort_by (fun a b => time b - time a) manifests in
    (* Phase 1: daily *)
    let dailies := firstn (Nat.min (daily config) (List.length sorted)) sorted in
    let st := (map (fun m => mkTiered m Daily
                      ("newest " ++ toString (Some (Z.of_nat (daily config)))))
                   dailies,
               map id dailies) in
    (* Phase 2: weekly *)
    let remaining := unassigned (snd st) sorted in
    let weeklyCandidate := sort_keys_desc (candidates (group_by weekKey remaining)) in
    let st := assign_loop Weekly "week " (weekly config) weeklyCandidate 0 st in
    (* Phase 3: monthly *)
    let remainingForMonthly := unassigned (snd st) sorted in
    let monthlyCandidates :=
      sort_keys_desc (candidates (group_by monthKey remainingForMonthly)) in
    let st := assign_loop Monthly "month " (monthly config) monthlyCandidates 0 st in
    (* Phase 4: prunable *)
    let result := fst st ++ map (fun m => mkTiered m Prunable "exceeds retention")
                                (unassigned (snd st) sorted) in
    sort_by (fun a b => time (manifest b) - time (manifest a)) result
  end.

Definition isPrunable (t : TieredBackup) : bool :=
  match tier t with Prunable => true | _ => false end.

(** [getBackupsToPrune(manifests, config, minKeep)]; the unused
    [keepCount] is left out. *)
Definition getBackupsToPrune (manifests : list BackupManifest) (config : GFSConfig)
    (minKeep : Z) : list TieredBackup :=
  match manifests with
  | [] => []
  | _ =>
    let classified := classifyBackups manifests config in
    let prunable := filter isPrunable classified in
    let totalBackups := Z.of_nat (List.length manifests) in
    let maxToPrune := Z.max 0 (totalBackups - minKeep) in
    let prunableOldestFirst :=
      sort_by (fun a b => time (manifest a) - time (manifest b)) prunable in
    firstn (Z.to_nat maxToPrune) prunableOldestFirst
  end.

(** The comparators of classifyBackups' sorts, and its residual record. *)
Definition desc_time (a b : BackupManifest) : Z := time b - time a.
Definition desc_time_t (a b : TieredBackup) : Z := time (manifest b) - time (manifest a).
Definition prunableOf (m : BackupManifest) : TieredBackup :=
  mkTiered m Prunable "exceeds retention".

End GFS.

(** Concrete inputs used by the witnesses and the counterexamples. *)
Module Examples.
Import GFS.

Definition cfg (d w m : nat) : GFSConfig := mkConfig true d w m.

Definition b1 : BackupManifest := mkManifest "b1" (utc 2025 1 1 0 0 0).
Definition b2 : BackupManifest := mkManifest "b2" (utc 2025 1 2 0 0 0).
Definition b3 : BackupManifest := mkManifest "b3" (utc 2025 1 3 0 0 0).
(** Three backups, given out of order. *)
Definition three : list BackupManifest := [b2; b3; b1].

(** Two backups taken at the same instant. *)
Definition ta : BackupManifest := mkManifest "a" (utc 2025 6 1 0 0 0).
Definition tb : BackupManifest := mkManifest "b" (utc 2025 6 1 0 0 0).

End Examples.


(** Concrete backups across two ISO weeks and two months. *)
Module MoreExamples.
Import GFS.

Definition wa : BackupManifest := mkManifest "wa" (utc 2025 1 6 0 0 0).
Definition wb : BackupManifest := mkManifest "wb" (utc 2025 1 8 0 0 0).
Definition wc : BackupManifest := mkManifest "wc" (utc 2025 1 14 0 0 0).
Definition wd : BackupManifest := mkManifest "wd" (utc 2025 2 5 0 0 0).
(** Monday and Wednesday of 2025-W02, Tuesday of 2025-W03, and a
    February backup, newest first. *)
Definition spread : list BackupManifest := [wd; wc; wb; wa].

(** Backups of 0999-06-15 and 1000-06-15: ISO weeks 999-W24 and 1000-W24,
    months 999-06 and 1000-06. *)
Definition y999 : BackupManifest := mkManifest "y999" (utc 999 6 15 0 0 0).
Definition y1000 : BackupManifest := mkManifest "y1000" (utc 1000 6 15 0 0 0).

End MoreExamples.


(** The callers of classifyBackups and getBackupsToPrune in src/cli.ts. *)
Module CLI.
Import JSString GFS.

(** An entry [{ manifest, reason }] of the prune command's [toDelete]. *)
Definition Deletion : Type := BackupManifest * option string.

(** listManifests' final
    [manifests.sort((a, b) => time b - time a)], newest first. *)
Definition listSort (manifests : list BackupManifest) : list BackupManifest :=
  sort_by desc_time manifests.

(** The GFS branch of the prune command:
    [toDelete = getBackupsToPrune(...).map(t => ({manifest: t.manifest, reason: t.tierReason}))]
    and [toKeep = manifests.filter(m => !toDelete.some(d => d.manifest.id === m.id))]. *)
Definition gfsPlan (manifests : list BackupManifest) (gfs : GFSConfig) (keepCount : Z)
  : list Deletion * list BackupManifest :=
  let toDelete := map (fun t => (manifest t, Some (tierReason t)))
                      (getBackupsToPrune manifests gfs keepCount) in
  let toKeep := filter (fun m => negb (existsb (fun d => String.eqb (id (fst d)) (id m))
                                               toDelete))
                       manifests in
  (toDelete, toKeep).

(** One iteration of the age-based loop
    [for (const manifest of manifests) { ... }]. *)
Definition ageStep (cutoffDate retentionDays keepCount : Z)
    (st : list Deletion * list BackupManifest) (m : BackupManifest)
  : list Deletion * list BackupManifest :=
  let (toDelete, toKeep) := st in
  let manifestDate := time m in
  if Z.of_nat (List.length toKeep) <? keepCount then (toDelete, toKeep ++ [m])
  else if cutoffDate <=? manifestDate then (toDelete, toKeep ++ [m])
  else (toDelete ++ [(m, Some ("older than " ++ toString (Some retentionDays) ++ " days")%string)],
        toKeep).

(** The age-based branch of the prune command, with [now = Date.now()]. *)
Definition agePlan (manifests : list BackupManifest) (now retentionDays keepCount : Z)
  : list Deletion * list BackupManifest :=
  let cutoffDate := now - retentionDays * 24 * 60 * 60 * 1000 in
  fold_left (ageStep cutoffDate retentionDays keepCount) manifests ([], []).

(** The fields of [config.retention] the prune command reads. *)
Record RetentionConfig :=
  mkRetention { days : Z; minKeep : Z; gfs : option GFSConfig }.

(** The prune command's plan [(toDelete, toKeep)] on the manifests
    listManifests returned.  [optKeep] and [optDays] are the parsed
    [--keep] and [--days] options ([None] when absent):
    [keepCount = options.keep ?? config.retention.minKeep] and
    [retentionDays = options.days || config.retention.days], where [0] is
    falsy. *)
Definition prunePlan (manifests : list BackupManifest) (now : Z)
    (retention : RetentionConfig) (optKeep optDays : option Z)
  : list Deletion * list BackupManifest :=
  let keepCount := match optKeep with Some k => k | None => minKeep retention end in
  let retentionDays := match optDays with
                       | Some d => if d =? 0 then days retention else d
                       | None => days retention
                       end in
  match gfs retention with
  | Some g => if enabled g then gfsPlan manifests g keepCount
              else agePlan manifests now retentionDays keepCount
  | None => agePlan manifests now retentionDays keepCount
  end.

(** A JavaScript [Map<string, V>] as its entries in insertion order:
    [set] replaces the value of a present key in place and appends a new
    key; [get] returns [undefined] ([None]) for a missing key. *)
Fixpoint map_set {V : Type} (k : string) (v : V) (mp : list (string * V))
  : list (string * V) :=
  match mp with
  | [] => [(k, v)]
  | (k', v') :: r => if String.eqb k k' then (k', v) :: r else (k', v') :: map_set k v r
  end.

Fixpoint map_get {V : Type} (k : string) (mp : list (string * V)) : option V :=
  match mp with
  | [] => None
  | (k', v) :: r => if String.eqb k k' then Some v else map_get k r
  end.

(** The list command's [tierMap]: empty unless [gfsConfig?.enabled], else
    [for (const c of classified) tierMap.set(c.manifest.id, {tier, reason})]. *)
Definition tierMapOf (manifests : list BackupManifest) (gfsConfig : option GFSConfig)
  : list (string * (BackupTier * string)) :=
  match gfsConfig with
  | Some g =>
      if enabled g then
        fold_left (fun tm c => map_set (id (manifest c)) (tier c, tierReason c) tm)
                  (classifyBackups manifests g) []
      else []
  | None => []
  end.

End CLI.


(** * Facts about the sort, the filters and the groups *)

Module ListFacts.
Import GFS.

Section SortFacts.
Context {A : Type} (cmp : A -> A -> Z).

Lemma insert_perm x l : Permutation (insert cmp x l) (x :: l).
Proof.
  induction l as [|e r IH]; simpl; [reflexivity|].
  destruct (cmp x e <? 0); [reflexivity|].
  rewrite IH. apply perm_swap.
Qed.

Lemma sort_by_perm_acc l acc :
  Permutation (fold_left (fun acc x => insert cmp x acc) l acc) (l ++ acc).
Proof.
  revert acc; induction l as [|x l IH]; intro acc; simpl; [reflexivity|].
  rewrite IH, insert_perm. symmetry. apply Permutation_middle.
Qed.

Lemma sort_by_perm l : Permutation (sort_by cmp l) l.
Proof.
  unfold sort_by. rewrite sort_by_perm_acc, app_nil_r. reflexivity.
Qed.

(** A relation that the comparator decides: [cmp x e < 0] puts [x]
    first, otherwise [e] may stay before [x]. *)
Variable R : A -> A -> Prop.
Hypothesis R_lt : forall x e, cmp x e < 0 -> R x e.
Hypothesis R_ge : forall x e, 0 <= cmp x e -> R e x.

Lemma insert_sorted x l : Sorted R l -> Sorted R (insert cmp x l).
Proof.
  induction 1 as [|e r Hs IH Hhd]; simpl.
  - repeat constructor.
  - destruct (cmp x e <? 0) eqn:E.
    + apply Z.ltb_lt in E. constructor; [constructor; auto|]. constructor. auto.
    + apply Z.ltb_ge in E. constructor; [exact IH|].
      destruct r as [|f r]; simpl.
      * constructor. auto.
      * destruct (cmp x f <? 0); constructor; auto.
        inversion Hhd; auto.
Qed.

Lemma sort_by_sorted l : Sorted R (sort_by cmp l).
Proof.
  unfold sort_by.
  assert (H : forall acc, Sorted R acc ->
            Sorted R (fold_left (fun acc x => insert cmp x acc) l acc)).
  { induction l as [|x l IH]; intros acc Hacc; simpl; auto.
    apply IH, insert_sorted, Hacc. }
  apply H. constructor.
Qed.

End SortFacts.

Lemma Permutation_filter' {A} (f : A -> bool) l l' :
  Permutation l l' -> Permutation (filter f l) (filter f l').
Proof.
  induction 1; simpl; auto.
  - destruct (f x); auto.
  - destruct (f x), (f y); auto. apply perm_swap.
  - eapply perm_trans; eauto.
Qed.

Lemma filter_partition {A} (f : A -> bool) l :
  Permutation l (filter f l ++ filter (fun x => negb (f x)) l).
Proof.
  induction l as [|x l IH]; simpl; auto.
  destruct (f x); simpl.
  - constructor. exact IH.
  - rewrite IH at 1. apply Permutation_middle.
Qed.

Lemma NoDup_firstn' {A} n (l : list A) : NoDup l -> NoDup (firstn n l).
Proof.
  intro H. rewrite <- (firstn_skipn n l) in H. eapply NoDup_app_remove_r; eauto.
Qed.

Lemma in_firstn' {A} n (l : list A) x : In x (firstn n l) -> In x l.
Proof.
  intro H. rewrite <- (firstn_skipn n l). apply in_app_iff. auto.
Qed.

Lemma StronglySorted_firstn_skipn {A} (R : A -> A -> Prop) n l x y :
  StronglySorted R l -> In x (firstn n l) -> In y (skipn n l) -> R x y.
Proof.
  revert l; induction n as [|n IH]; intros l Hs Hx Hy; [destruct Hx|].
  destruct l as [|a l]; [destruct Hx|].
  simpl in Hx, Hy. apply StronglySorted_inv in Hs as [Hs Ha].
  destruct Hx as [<-|Hx].
  - rewrite Forall_forall in Ha. apply Ha.
    rewrite <- (firstn_skipn n l). apply in_app_iff. auto.
  - eapply IH; eauto.
Qed.

Lemma mem_true s l : mem s l = true <-> In s l.
Proof.
  unfold mem. rewrite existsb_exists. split.
  - intros [x [Hx E]]. apply String.eqb_eq in E. subst. exact Hx.
  - intro H. exists s. split; auto. apply String.eqb_refl.
Qed.

Lemma unassigned_app a b l : unassigned (a ++ b) l = unassigned b (unassigned a l).
Proof.
  induction l as [|x l IH]; simpl; auto.
  unfold mem at 1. rewrite existsb_app. fold (mem (id x) a). fold (mem (id x) b).
  destruct (mem (id x) a); simpl; rewrite IH; auto.
Qed.

Lemma NoDup_map_eq {A B} (f : A -> B) l x y :
  NoDup (map f l) -> In x l -> In y l -> f x = f y -> x = y.
Proof.
  induction l as [|a l IH]; simpl; intros Hn Hx Hy E; [destruct Hx|].
  inversion Hn as [|? ? Hnin Hn']; subst.
  destruct Hx as [<-|Hx], Hy as [<-|Hy]; auto.
  - exfalso. apply Hnin. rewrite E. apply in_map. exact Hy.
  - exfalso. apply Hnin. rewrite <- E. apply in_map. exact Hx.
Qed.

(** Taking out a duplicate-free part [X] of a list with distinct
    identifiers, by identifier, leaves the rest. *)
Lemma unassigned_split S X :
  NoDup (map id S) -> incl X S -> NoDup X ->
  Permutation S (X ++ unassigned (map id X) S).
Proof.
  intros HS Hincl HX.
  unfold unassigned.
  rewrite (filter_partition (fun m => mem (id m) (map id X)) S) at 1.
  apply Permutation_app_tail.
  apply NoDup_Permutation.
  - apply NoDup_filter. eapply NoDup_map_inv; eauto.
  - exact HX.
  - intro x. rewrite filter_In, mem_true, in_map_iff. split.
    + intros [Hx [y [Ey Hy]]].
      rewrite (NoDup_map_eq id S x y HS Hx (Hincl y Hy) (eq_sym Ey)). exact Hy.
    + intro Hx. split; [apply Hincl; exact Hx|]. exists x. auto.
Qed.

Lemma NoDup_app_disjoint {A} (l l' : list A) x :
  NoDup (l ++ l') -> In x l -> In x l' -> False.
Proof.
  induction l as [|a l IH]; simpl; intros Hn Hx Hx'; [destruct Hx|].
  inversion Hn as [|? ? Hnin Hn']; subst.
  destruct Hx as [<-|Hx]; eauto.
  apply Hnin, in_app_iff. auto.
Qed.

Lemma group_push_perm k m g :
  Permutation (List.concat (map snd (group_push k m g))) (List.concat (map snd g) ++ [m]).
Proof.
  induction g as [|[k' ms] r IH]; simpl; [reflexivity|].
  destruct (String.eqb k k'); simpl.
  - rewrite <- !app_assoc. apply Permutation_app_head.
    apply Permutation_app_comm.
  - rewrite IH, app_assoc. reflexivity.
Qed.

Lemma group_by_perm key l : Permutation (List.concat (map snd (group_by key l))) l.
Proof.
  unfold group_by.
  assert (H : forall g, Permutation
            (List.concat (map snd (fold_left (fun g m => group_push (key m) m g) l g)))
            (List.concat (map snd g) ++ l)).
  { induction l as [|x l IH]; intro g; simpl; [rewrite app_nil_r; reflexivity|].
    rewrite IH, group_push_perm, <- app_assoc. reflexivity. }
  rewrite H. reflexivity.
Qed.

(** One candidate per group, each a member of its group: the candidates
    of disjoint groups are distinct. *)
Lemma candidates_sub g :
  NoDup (List.concat (map snd g)) ->
  NoDup (map snd (candidates g)) /\ incl (map snd (candidates g)) (List.concat (map snd g)).
Proof.
  induction g as [|[k ms] r IH]; simpl; intro Hn.
  - split; [constructor | intros x []].
  - destruct (IH (NoDup_app_remove_l _ _ Hn)) as [IHn IHi].
    pose proof (sort_by_perm (fun a b => time a - time b) ms) as Hp.
    destruct (sort_by (fun a b => time a - time b) ms) as [|m rest] eqn:E; simpl.
    + split; auto. intros x Hx. apply in_app_iff. auto.
    + assert (Hm : In m ms) by (eapply Permutation_in; [exact Hp | left; auto]).
      split.
      * constructor; auto. intro Hin. apply IHi in Hin.
        eapply NoDup_app_disjoint; eauto.
      * intros x [<-|Hx]; apply in_app_iff; auto.
Qed.

Lemma candidates_group_by key l :
  NoDup l ->
  NoDup (map snd (candidates (group_by key l))) /\
  incl (map snd (candidates (group_by key l))) l.
Proof.
  intro Hl. pose proof (group_by_perm key l) as Hp.
  destruct (candidates_sub (group_by key l)) as [H1 H2].
  - eapply Permutation_NoDup; [symmetry; exact Hp | exact Hl].
  - split; auto. intros x Hx. eapply Permutation_in; [exact Hp | auto].
Qed.

Lemma assign_loop_spec t pre limit cands n res asg :
  assign_loop t pre limit cands n (res, asg) =
  (res ++ map (fun km => mkTiered (snd km) t (pre ++ fst km)) (firstn (limit - n) cands),
   asg ++ map (fun km => id (snd km)) (firstn (limit - n) cands)).
Proof.
  revert n res asg; induction cands as [|[k m] rest IH]; intros n res asg; simpl.
  - rewrite firstn_nil. simpl. rewrite !app_nil_r. reflexivity.
  - destruct (limit <=? n)%nat eqn:E.
    + apply Nat.leb_le in E. replace (limit - n)%nat with 0%nat by lia.
      simpl. rewrite !app_nil_r. reflexivity.
    + apply Nat.leb_gt in E. rewrite IH.
      replace (limit - n)%nat with (S (limit - S n)) by lia. simpl.
      rewrite <- !app_assoc. reflexivity.
Qed.

End ListFacts.


Module ClassifyFacts.
Import GFS ListFacts.


Lemma picked_sub key n L :
  NoDup L ->
  NoDup (map snd (firstn n (sort_keys_desc (candidates (group_by key L))))) /\
  incl (map snd (firstn n (sort_keys_desc (candidates (group_by key L))))) L.
Proof.
  intro HL. destruct (candidates_group_by key L HL) as [Hn Hi].
  assert (Hp : Permutation (map snd (sort_keys_desc (candidates (group_by key L))))
                           (map snd (candidates (group_by key L)))).
  { apply Permutation_map, sort_by_perm. }
  rewrite <- firstn_map. split.
  - apply NoDup_firstn'. eapply Permutation_NoDup; [symmetry; exact Hp | exact Hn].
  - intros x Hx. apply Hi. eapply Permutation_in; [exact Hp|]. eapply in_firstn'; eauto.
Qed.

(** The four phases of classifyBackups, read off the code. *)
Lemma classify_shape b B0 C :
  let sorted := sort_by desc_time (b :: B0) in
  exists D W M TD TW TM,
    classifyBackups (b :: B0) C =
      sort_by desc_time_t
        (TD ++ TW ++ TM ++ map prunableOf (unassigned (map id D ++ map id W ++ map id M) sorted))
    /\ map manifest TD = D /\ map manifest TW = W /\ map manifest TM = M
    /\ Forall (fun t => tier t = Daily) TD
    /\ Forall (fun t => tier t = Weekly) TW
    /\ Forall (fun t => tier t = Monthly) TM
    /\ D = firstn (Nat.min (daily C) (List.length sorted)) sorted
    /\ (List.length W <= weekly C)%nat /\ (List.length M <= monthly C)%nat
    /\ (NoDup (unassigned (map id D) sorted) ->
        NoDup W /\ incl W (unassigned (map id D) sorted))
    /\ (NoDup (unassigned (map id D ++ map id W) sorted) ->
        NoDup M /\ incl M (unassigned (map id D ++ map id W) sorted)).
Proof.
  intro sorted. unfold classifyBackups.
  change (fun a b0 : BackupManifest => time b0 - time a) with desc_time.
  change (fun a b0 : TieredBackup => time (manifest b0) - time (manifest a)) with desc_time_t.
  fold sorted. cbn [fst snd]. rewrite assign_loop_spec. cbn [fst snd].
  rewrite assign_loop_spec. cbn [fst snd]. rewrite !Nat.sub_0_r.
  set (D := firstn (Nat.min (daily C) (List.length sorted)) sorted).
  set (WC := firstn (weekly C) (sort_keys_desc (candidates
                (group_by weekKey (unassigned (map id D) sorted))))).
  set (MC := firstn (monthly C) (sort_keys_desc (candidates
                (group_by monthKey (unassigned (map id D ++ map (fun km => id (snd km)) WC) sorted))))).
  exists D, (map snd WC), (map snd MC).
  exists (map (fun m => mkTiered m Daily
                 ("newest " ++ toString (Some (Z.of_nat (daily C))))) D),
         (map (fun km => mkTiered (snd km) Weekly ("week " ++ fst km)) WC),
         (map (fun km => mkTiered (snd km) Monthly ("month " ++ fst km)) MC).
  split.
  { rewrite !map_map. rewrite <- !app_assoc. reflexivity. }
  repeat split.
  - rewrite map_map. apply map_id.
  - rewrite map_map. reflexivity.
  - rewrite map_map. reflexivity.
  - apply Forall_forall. intros x Hx. apply in_map_iff in Hx as [? [<- _]]. reflexivity.
  - apply Forall_forall. intros x Hx. apply in_map_iff in Hx as [? [<- _]]. reflexivity.
  - apply Forall_forall. intros x Hx. apply in_map_iff in Hx as [? [<- _]]. reflexivity.
  - rewrite length_map. apply firstn_le_length.
  - rewrite length_map. apply firstn_le_length.
  - match goal with H : NoDup _ |- _ => exact (proj1 (picked_sub weekKey (weekly C) _ H)) end.
  - match goal with H : NoDup _ |- _ => exact (proj2 (picked_sub weekKey (weekly C) _ H)) end.
  - match goal with H : NoDup _ |- _ =>
      rewrite map_map in H; exact (proj1 (picked_sub monthKey (monthly C) _ H)) end.
  - match goal with H : NoDup _ |- _ =>
      rewrite map_map in *; exact (proj2 (picked_sub monthKey (monthly C) _ H)) end.
Qed.

Lemma NoDup_map_filter {A B} (f : A -> B) (p : A -> bool) l :
  NoDup (map f l) -> NoDup (map f (filter p l)).
Proof.
  induction l as [|x l IH]; simpl; intro Hn; [constructor|].
  inversion Hn as [|? ? Hnin Hn']; subst.
  destruct (p x); simpl; auto.
  constructor; auto. intro Hin. apply Hnin.
  apply in_map_iff in Hin as [y [Ey Hy]]. rewrite <- Ey.
  apply in_map. apply filter_In in Hy. apply Hy.
Qed.

Lemma length_filter_le' {A} (p : A -> bool) l : (List.length (filter p l) <= List.length l)%nat.
Proof. induction l as [|x l IH]; simpl; [lia|]. destruct (p x); simpl; lia. Qed.

Lemma sort_desc_perm_id B :
  NoDup (map id B) -> NoDup (map id (sort_by desc_time B)).
Proof.
  intro H. eapply Permutation_NoDup; [|exact H].
  apply Permutation_map. symmetry. apply sort_by_perm.
Qed.

(** Every input backup is classified once: the output, read as backups,
    is a permutation of the input. *)
Lemma classify_perm B C :
  NoDup (map id B) -> Permutation (map manifest (classifyBackups B C)) B.
Proof.
  intro Hid. destruct B as [|b B0]; [simpl; constructor|].
  destruct (classify_shape b B0 C) as
    (D & W & M & TD & TW & TM & Heq & HD & HW & HM & _ & _ & _ & HDf & _ & _ & HWs & HMs).
  set (sorted := sort_by desc_time (b :: B0)) in *.
  assert (Hs : Permutation sorted (b :: B0)) by apply sort_by_perm.
  assert (Hsid : NoDup (map id sorted)) by (apply sort_desc_perm_id; exact Hid).
  assert (Hsn : NoDup sorted) by (eapply NoDup_map_inv; eauto).
  rewrite Heq. rewrite sort_by_perm, !map_app, HD, HW, HM, map_map.
  cbn [manifest prunableOf]. rewrite map_id.
  rewrite <- Hs.
  (* daily *)
  assert (HDi : incl D sorted) by (rewrite HDf; intros x Hx; eapply in_firstn'; eauto).
  assert (HDn : NoDup D) by (rewrite HDf; apply NoDup_firstn'; exact Hsn).
  symmetry. eapply perm_trans; [exact (unassigned_split sorted D Hsid HDi HDn)|].
  apply Permutation_app_head.
  set (U1 := unassigned (map id D) sorted) in *.
  assert (HU1 : NoDup (map id U1)) by (apply NoDup_map_filter; exact Hsid).
  destruct (HWs (NoDup_map_inv _ _ HU1)) as [HWn HWi].
  eapply perm_trans; [exact (unassigned_split U1 W HU1 HWi HWn)|].
  apply Permutation_app_head.
  rewrite unassigned_app, unassigned_app. fold U1.
  set (U2 := unassigned (map id W) U1).
  assert (HU2e : U2 = unassigned (map id D ++ map id W) sorted)
    by (unfold U2, U1; rewrite unassigned_app; reflexivity).
  assert (HU2 : NoDup (map id U2)) by (apply NoDup_map_filter; exact HU1).
  rewrite <- HU2e in HMs.
  destruct (HMs (NoDup_map_inv _ _ HU2)) as [HMn HMi].
  apply (unassigned_split U2 M HU2 HMi HMn).
Qed.

Lemma classify_length B C :
  NoDup (map id B) -> List.length (classifyBackups B C) = List.length B.
Proof.
  intro H. rewrite <- (length_map manifest). apply Permutation_length, classify_perm, H.
Qed.

Lemma StronglySorted_strict {A} (k : A -> Z) l :
  StronglySorted (fun a b => k b <= k a) l -> NoDup (map k l) ->
  StronglySorted (fun a b => k b < k a) l.
Proof.
  induction l as [|x l IH]; intros Hs Hn; constructor.
  - apply StronglySorted_inv in Hs as [Hs _]. inversion Hn; subst. auto.
  - apply StronglySorted_inv in Hs as [_ Ha].
    inversion Hn as [|? ? Hnin _]; subst.
    rewrite Forall_forall in *. intros y Hy.
    specialize (Ha y Hy). assert (k y <> k x).
    { intro E. apply Hnin. rewrite <- E. apply in_map, Hy. }
    lia.
Qed.

(** Two strictly sorted permutations of each other are equal. *)
Lemma StronglySorted_perm_eq {A} (R : A -> A -> Prop) :
  (forall x, ~ R x x) -> (forall x y, R x y -> R y x -> False) ->
  forall l1 l2, StronglySorted R l1 -> StronglySorted R l2 ->
  Permutation l1 l2 -> l1 = l2.
Proof.
  intros Hirr Hasym l1. induction l1 as [|a r1 IH]; intros l2 Hs1 Hs2 Hp.
  - symmetry. apply Permutation_nil, Hp.
  - destruct l2 as [|b r2]; [apply Permutation_sym, Permutation_nil in Hp; discriminate|].
    apply StronglySorted_inv in Hs1 as [Hs1 Ha].
    apply StronglySorted_inv in Hs2 as [Hs2 Hb].
    rewrite Forall_forall in Ha, Hb.
    assert (Hain : In a (b :: r2)) by (eapply Permutation_in; [exact Hp | left; auto]).
    destruct Hain as [Eba|Hain].
    + subst b. f_equal. apply IH; auto. eapply Permutation_cons_inv; eauto.
    + assert (Hbin : In b (a :: r1))
        by (eapply Permutation_in; [symmetry; exact Hp | left; auto]).
      destruct Hbin as [Eab|Hbin].
      * subst b. exfalso. exact (Hirr a (Hb a Hain)).
      * exfalso. exact (Hasym a b (Ha b Hbin) (Hb a Hain)).
Qed.

Lemma sort_desc_sorted {A} (k : A -> Z) l :
  StronglySorted (fun a b => k b <= k a) (sort_by (fun a b => k b - k a) l).
Proof.
  apply Sorted_StronglySorted; [intros x y z; lia|].
  apply sort_by_sorted; intros; lia.
Qed.

Lemma sort_asc_sorted {A} (k : A -> Z) l :
  StronglySorted (fun a b => k a <= k b) (sort_by (fun a b => k a - k b) l).
Proof.
  apply Sorted_StronglySorted; [intros x y z; lia|].
  apply sort_by_sorted; intros; lia.
Qed.

End ClassifyFacts.


(** * Calendar facts and the printed period keys *)

Module Calendar.
Import JSDate JSString.
Local Open Scope bool_scope.
Local Open Scope Z_scope.

(** Hinnant's [civil_from_days] inverts [days_from_civil] and lands in the
    year it names. *)

Lemma civil_from_days_spec z :
  let '(y, m, d) := civil_from_days z in
  1 <= m <= 12 /\ 1 <= d <= 31 /\ days_from_civil y m d = z /\
  0 <= z - days_from_civil y 1 1 <= 365 /\
  146097 * (y - 400) <= 400 * (z + 719468) < 146097 * (y + 400).
Proof.
  unfold civil_from_days.
  remember ((z + 719468) / 146097) as era eqn:Hera.
  remember (z + 719468 - era * 146097) as doe eqn:Hdoe.
  assert (Hd : 0 <= doe < 146097) by (subst; Z.div_mod_to_equations; lia).
  remember ((doe - doe / 1460 + doe / 36524 - doe / 146096) / 365) as yoe eqn:Hyoe.
  remember (doe - (365 * yoe + yoe / 4 - yoe / 100)) as doy eqn:Hdoy.
  assert (Hb : 0 <= yoe <= 399 /\ 0 <= doy <= 365) by (subst yoe doy; clear Hdoe; Z.div_mod_to_equations; lia).
  remember ((5 * doy + 2) / 153) as mp eqn:Hmp.
  assert (Hmpb : 0 <= mp <= 11) by (subst mp; Z.div_mod_to_equations; lia).
  assert (Hdd : 1 <= doy - (153 * mp + 2) / 5 + 1 <= 31) by (subst mp; Z.div_mod_to_equations; lia).
  unfold days_from_civil.
  destruct (mp <? 10) eqn:E1.
  - apply Z.ltb_lt in E1.
    replace (mp + 3 <=? 2) with false by (symmetry; apply Z.leb_gt; lia).
    replace (2 <? mp + 3) with true by (symmetry; apply Z.ltb_lt; lia).
    replace (mp + 3 - 3) with mp by lia.
    replace ((yoe + era * 400) / 400) with era by (Z.div_mod_to_equations; lia).
    replace (yoe + era * 400 - era * 400) with yoe by ring.
    replace (1 <=? 2) with true by reflexivity. replace (2 <? 1) with false by reflexivity.
    cbv iota.
    split; [lia|]. split; [exact Hdd|]. split; [lia|].
    split; [|lia].
    clear Hdd Hmpb.
    destruct (Z.eq_dec yoe 0) as [E0|E0].
    + replace ((yoe + era * 400 - 1) / 400) with (era - 1) by (Z.div_mod_to_equations; lia).
      replace (yoe + era * 400 - 1 - (era - 1) * 400) with 399 by lia.
      subst yoe. Z.div_mod_to_equations. lia.
    + replace ((yoe + era * 400 - 1) / 400) with era by (Z.div_mod_to_equations; lia).
      replace (yoe + era * 400 - 1 - era * 400) with (yoe - 1) by lia.
      Z.div_mod_to_equations. lia.
  - apply Z.ltb_ge in E1.
    replace (mp - 9 <=? 2) with true by (symmetry; apply Z.leb_le; lia).
    replace (2 <? mp - 9) with false by (symmetry; apply Z.ltb_ge; lia).
    replace (mp - 9 + 9) with mp by lia.
    replace (yoe + era * 400 + 1 - 1) with (yoe + era * 400) by ring.
    replace ((yoe + era * 400) / 400) with era by (Z.div_mod_to_equations; lia).
    replace (yoe + era * 400 - era * 400) with yoe by ring.
    replace (1 <=? 2) with true by reflexivity. replace (2 <? 1) with false by reflexivity.
    cbv iota.
    split; [lia|]. split; [exact Hdd|]. split; [lia|].
    split; [|lia].
    clear Hdd Hmpb.
    Z.div_mod_to_equations. lia.
Qed.

Lemma days_from_civil_day y m d : days_from_civil y m d = days_from_civil y m 1 + d - 1.
Proof. unfold days_from_civil. lia. Qed.

Lemma MakeDay_civil z k :
  let '(y, m, d) := civil_from_days z in MakeDay y (m - 1) (d + k) = z + k.
Proof.
  pose proof (civil_from_days_spec z) as H.
  destruct (civil_from_days z) as [[y m] d]. destruct H as (Hm & _ & Hr & _).
  unfold MakeDay.
  replace ((m - 1) / 12) with 0 by (Z.div_mod_to_equations; lia).
  replace ((m - 1) mod 12) with (m - 1) by (Z.div_mod_to_equations; lia).
  rewrite Z.add_0_r, Z.sub_add. rewrite (days_from_civil_day y m d) in Hr. lia.
Qed.

Lemma Day_mul z : Day (z * msPerDay) = z.
Proof. unfold Day. apply Z.div_mul. unfold msPerDay. lia. Qed.

Lemma TimeWithinDay_mul z : TimeWithinDay (z * msPerDay) = 0.
Proof. unfold TimeWithinDay. apply Z.mod_mul. unfold msPerDay. lia. Qed.

Lemma year_day_range z :
  1000 <= fst (fst (civil_from_days z)) <= 9999 -> -600000 <= z <= 3100000.
Proof.
  pose proof (civil_from_days_spec z) as H.
  destruct (civil_from_days z) as [[y m] d]. simpl. lia.
Qed.

Lemma TimeClip_day z : -100000000 <= z <= 100000000 -> TimeClip (z * msPerDay) = Some (z * msPerDay).
Proof.
  intro H. unfold TimeClip. replace (Z.abs (z * msPerDay) <=? maxTime) with true; [reflexivity|].
  symmetry. apply Z.leb_le. unfold msPerDay, maxTime. lia.
Qed.

Lemma getISOWeek_spec t :
  1000 <= YearFromTime t <= 9999 ->
  let z0 := Day t in
  let dn := (if (z0 + 4) mod 7 =? 0 then 7 else (z0 + 4) mod 7) in
  let z1 := z0 + 4 - dn in
  let Y1 := fst (fst (civil_from_days z1)) in
  iso_year (getISOWeek (Some t)) = Some Y1 /\
  ((Y1 < 0 \/ 99 < Y1) ->
   iso_week (getISOWeek (Some t)) = Some (ceil_div (z1 - days_from_civil Y1 1 1 + 1) 7)).
Proof.
  intros HY z0 dn z1 Y1.
  unfold getISOWeek, getUTCFullYear, getUTCMonth, getUTCDate, getUTCDay.
  cbn [option_map].
  unfold YearFromTime, MonthFromTime, DateFromTime in *. fold z0 in HY |- *.
  pose proof (year_day_range z0 HY) as Hz0.
  pose proof (MakeDay_civil z0 0) as Hmd.
  destruct (civil_from_days z0) as [[Y0 M0] D0] eqn:E0. cbn [fst snd] in *.
  assert (Hd : Date_UTC (Some Y0) (Some (M0 - 1)) (Some D0) = Some (z0 * msPerDay)).
  { unfold Date_UTC.
    replace ((0 <=? Y0) && (Y0 <=? 99)) with false
      by (symmetry; apply andb_false_iff; right; apply Z.leb_gt; lia).
    unfold MakeDate. rewrite Z.add_0_r in Hmd |- *. rewrite Hmd, Z.add_0_r.
    apply TimeClip_day. lia. }
  rewrite Hd. cbn [option_map].
  unfold WeekDay. rewrite !Day_mul, E0. cbn [fst snd]. fold dn.
  assert (Hdn : 1 <= dn <= 7).
  { unfold dn. destruct ((z0 + 4) mod 7 =? 0) eqn:E; [lia|].
    apply Z.eqb_neq in E. pose proof (Z.mod_pos_bound (z0 + 4) 7). lia. }
  assert (Hs : setUTCDate (Some (z0 * msPerDay)) (Some (D0 + 4 - dn)) = Some (z1 * msPerDay)).
  { unfold setUTCDate, YearFromTime, MonthFromTime.
    rewrite Day_mul, E0, TimeWithinDay_mul. cbn [fst snd].
    pose proof (MakeDay_civil z0 (4 - dn)) as Hk. rewrite E0 in Hk.
    replace (D0 + 4 - dn) with (D0 + (4 - dn)) by ring. rewrite Hk.
    unfold MakeDate. rewrite Z.add_0_r. replace (z0 + (4 - dn)) with z1 by (unfold z1; ring).
    apply TimeClip_day. unfold z1. lia. }
  rewrite Hs. cbn [option_map iso_year iso_week]. rewrite Day_mul. fold Y1.
  split; [reflexivity|]. intro HY1.
  pose proof (civil_from_days_spec z1) as Hc1.
  destruct (civil_from_days z1) as [[y1 m1] d1] eqn:E1. cbn [fst] in Y1.
  destruct Hc1 as (_ & _ & _ & HJ & _).
  assert (Hys : Date_UTC (Some Y1) (Some 0) (Some 1) =
                Some (days_from_civil Y1 1 1 * msPerDay)).
  { unfold Date_UTC.
    replace ((0 <=? Y1) && (Y1 <=? 99)) with false
      by (symmetry; apply andb_false_iff; destruct HY1;
          [left; apply Z.leb_gt | right; apply Z.leb_gt]; lia).
    assert (HM : MakeDay Y1 0 1 = days_from_civil Y1 1 1).
    { unfold MakeDay. change (0 / 12) with 0. change (0 mod 12) with 0.
      rewrite Z.add_0_r. change (0 + 1) with 1. ring. }
    unfold MakeDate. rewrite HM, Z.add_0_r.
    apply TimeClip_day. unfold z1 in HJ. subst Y1. lia. }
  rewrite Hys. f_equal.
  unfold ceil_div.
  replace (- (z1 * msPerDay - days_from_civil Y1 1 1 * msPerDay + msPerDay))
    with ((- (z1 - days_from_civil Y1 1 1 + 1)) * msPerDay) by ring.
  rewrite Z.div_mul_cancel_r; [reflexivity | lia | unfold msPerDay; lia].
Qed.

Lemma week_range t :
  1000 <= YearFromTime t <= 9999 ->
  forall y, iso_year (getISOWeek (Some t)) = Some y -> (y < 0 \/ 99 < y) ->
  exists w, iso_week (getISOWeek (Some t)) = Some w /\ 1 <= w <= 53.
Proof.
  intros HY y Hy Hy99.
  destruct (getISOWeek_spec t HY) as [HYe HW].
  set (z1 := Day t + 4 - (if (Day t + 4) mod 7 =? 0 then 7 else (Day t + 4) mod 7)) in *.
  assert (Ey : fst (fst (civil_from_days z1)) = y) by congruence.
  rewrite <- Ey in Hy99. rewrite (HW Hy99). eexists. split; [reflexivity|].
  pose proof (civil_from_days_spec z1) as Hc.
  destruct (civil_from_days z1) as [[y1 m1] d1]. cbn [fst] in *.
  destruct Hc as (_ & _ & _ & HJ & _).
  unfold ceil_div. Z.div_mod_to_equations. lia.
Qed.

Definition then_cmp (c k : comparison) : comparison :=
  match c with Eq => k | c => c end.

Lemma then_cmp_assoc a b c : then_cmp (then_cmp a b) c = then_cmp a (then_cmp b c).
Proof. destruct a; reflexivity. Qed.

Lemma cmp_split a b :
  Z.compare a b = then_cmp (Z.compare (a / 10) (b / 10)) (Z.compare (a mod 10) (b mod 10)).
Proof.
  destruct (Z.compare_spec (a / 10) (b / 10)) as [H|H|H]; cbn [then_cmp].
  - destruct (Z.compare_spec (a mod 10) (b mod 10)) as [H'|H'|H'].
    + apply Z.compare_eq_iff. Z.div_mod_to_equations. lia.
    + apply Z.compare_lt_iff. Z.div_mod_to_equations. lia.
    + apply Z.compare_gt_iff. Z.div_mod_to_equations. lia.
  - apply Z.compare_lt_iff. Z.div_mod_to_equations. lia.
  - apply Z.compare_gt_iff. Z.div_mod_to_equations. lia.
Qed.

Lemma digit_cmp a b : 0 <= a <= 9 -> 0 <= b <= 9 ->
  N.compare (N_of_ascii (digit a)) (N_of_ascii (digit b)) = Z.compare a b.
Proof.
  intros Ha Hb.
  assert (a = 0 \/ a = 1 \/ a = 2 \/ a = 3 \/ a = 4 \/ a = 5 \/ a = 6 \/ a = 7 \/ a = 8 \/ a = 9)
    as Ea by lia.
  assert (b = 0 \/ b = 1 \/ b = 2 \/ b = 3 \/ b = 4 \/ b = 5 \/ b = 6 \/ b = 7 \/ b = 8 \/ b = 9)
    as Eb by lia.
  repeat destruct Ea as [Ea|Ea]; repeat destruct Eb as [Eb|Eb]; subst; reflexivity.
Qed.

Lemma str_cmp_digit a b r1 r2 : 0 <= a <= 9 -> 0 <= b <= 9 ->
  str_cmp (String (digit a) r1) (String (digit b) r2) = then_cmp (Z.compare a b) (str_cmp r1 r2).
Proof.
  intros Ha Hb. cbn [str_cmp]. rewrite (digit_cmp a b Ha Hb).
  destruct (Z.compare a b); reflexivity.
Qed.

Lemma str_cmp_same c r1 r2 : str_cmp (String c r1) (String c r2) = str_cmp r1 r2.
Proof. cbn [str_cmp]. rewrite N.compare_refl. reflexivity. Qed.

Lemma size_nat_pos p : (1 <= Pos.size_nat p)%nat.
Proof. destruct p; simpl; lia. Qed.

Lemma size_nat_ge y k : 0 < k < y -> (Pos.size_nat (Z.to_pos k) <= Pos.size_nat (Z.to_pos y))%nat.
Proof. intros H. apply Pos.size_nat_monotone. assert (Hl : Z.pos (Z.to_pos k) < Z.pos (Z.to_pos y)) by (rewrite !Z2Pos.id; lia). exact Hl. Qed.

Lemma toString_4 y : 1000 <= y <= 9999 ->
  toString (Some y) =
  String (digit (y / 10 / 10 / 10)) (String (digit (y / 10 / 10 mod 10))
    (String (digit (y / 10 mod 10)) (String (digit (y mod 10)) EmptyString))).
Proof.
  intros Hy. unfold toString.
  replace (y <? 0) with false by (symmetry; apply Z.ltb_ge; lia).
  rewrite Z.abs_eq by lia.
  pose proof (size_nat_ge y 999 ltac:(lia)) as Hs. cbn in Hs.
  destruct (Pos.size_nat (Z.to_pos y)) as [|[|[|[|f]]]]; try lia.
  cbn [digits_aux].
  replace (y <? 10) with false by (symmetry; apply Z.ltb_ge; lia).
  replace (y / 10 <? 10) with false by (symmetry; apply Z.ltb_ge; Z.div_mod_to_equations; lia).
  replace (y / 10 / 10 <? 10) with false by (symmetry; apply Z.ltb_ge; Z.div_mod_to_equations; lia).
  replace (y / 10 / 10 / 10 <? 10) with true by (symmetry; apply Z.ltb_lt; Z.div_mod_to_equations; lia).
  rewrite (Z.mod_small (y / 10 / 10 / 10)) by (Z.div_mod_to_equations; lia).
  reflexivity.
Qed.

Lemma padStart2_2 w : 0 <= w <= 99 ->
  padStart2 (toString (Some w)) = String (digit (w / 10)) (String (digit (w mod 10)) EmptyString).
Proof.
  intros Hw. unfold toString.
  replace (w <? 0) with false by (symmetry; apply Z.ltb_ge; lia).
  rewrite Z.abs_eq by lia.
  destruct (Z.lt_ge_cases w 10) as [Hl|Hl].
  - pose proof (size_nat_pos (Z.to_pos w)) as Hs.
    destruct (Pos.size_nat (Z.to_pos w)) as [|f]; try lia.
    cbn [digits_aux].
    replace (w <? 10) with true by (symmetry; apply Z.ltb_lt; lia).
    rewrite (Z.div_small w 10), (Z.mod_small w 10) by lia. reflexivity.
  - pose proof (size_nat_ge w 9 ltac:(lia)) as Hs. cbn in Hs.
    destruct (Pos.size_nat (Z.to_pos w)) as [|[|f]]; try lia.
    cbn [digits_aux].
    replace (w <? 10) with false by (symmetry; apply Z.ltb_ge; lia).
    replace (w / 10 <? 10) with true by (symmetry; apply Z.ltb_lt; Z.div_mod_to_equations; lia).
    rewrite (Z.mod_small (w / 10)) by (Z.div_mod_to_equations; lia).
    reflexivity.
Qed.

Lemma str_cmp_year y1 y2 r1 r2 : 1000 <= y1 <= 9999 -> 1000 <= y2 <= 9999 ->
  str_cmp (toString (Some y1) ++ r1) (toString (Some y2) ++ r2) =
  then_cmp (Z.compare y1 y2) (str_cmp r1 r2).
Proof.
  intros H1 H2. rewrite (toString_4 y1 H1), (toString_4 y2 H2). cbn [append].
  rewrite !str_cmp_digit by (Z.div_mod_to_equations; lia).
  rewrite (cmp_split y1 y2), (cmp_split (y1 / 10) (y2 / 10)),
    (cmp_split (y1 / 10 / 10) (y2 / 10 / 10)).
  rewrite !then_cmp_assoc. reflexivity.
Qed.

Lemma str_cmp_two w1 w2 r1 r2 : 0 <= w1 <= 99 -> 0 <= w2 <= 99 ->
  str_cmp (padStart2 (toString (Some w1)) ++ r1) (padStart2 (toString (Some w2)) ++ r2) =
  then_cmp (Z.compare w1 w2) (str_cmp r1 r2).
Proof.
  intros H1 H2. rewrite (padStart2_2 w1 H1), (padStart2_2 w2 H2). cbn [append].
  rewrite !str_cmp_digit by (Z.div_mod_to_equations; lia).
  rewrite (cmp_split w1 w2), then_cmp_assoc. reflexivity.
Qed.

Lemma then_cmp_lt a b : then_cmp (Z.compare a b) Eq = Lt <-> a < b.
Proof.
  rewrite <- Z.compare_lt_iff. destruct (Z.compare a b); cbn; split; congruence.
Qed.

Lemma lex_lt a1 a2 b1 b2 :
  then_cmp (Z.compare a1 a2) (then_cmp (Z.compare b1 b2) Eq) = Lt <->
  a1 < a2 \/ (a1 = a2 /\ b1 < b2).
Proof.
  destruct (Z.compare_spec a1 a2) as [H|H|H]; cbn [then_cmp].
  - rewrite then_cmp_lt. lia.
  - split; [lia|reflexivity].
  - split; [discriminate|lia].
Qed.

Lemma week_key_facts t :
  four_digit (getUTCFullYear (Some t)) = true ->
  four_digit (iso_year (getISOWeek (Some t))) = true ->
  exists y w, getISOWeek (Some t) = mkISOWeek (Some y) (Some w) /\
              1000 <= y <= 9999 /\ 1 <= w <= 53.
Proof.
  intros H1 H2. cbn [getUTCFullYear option_map four_digit] in H1.
  apply andb_true_iff in H1 as [H1a H1b].
  apply Z.leb_le in H1a. apply Z.leb_le in H1b.
  destruct (iso_year (getISOWeek (Some t))) as [y|] eqn:Ey; [|discriminate].
  cbn [four_digit] in H2. apply andb_true_iff in H2 as [H2a H2b].
  apply Z.leb_le in H2a. apply Z.leb_le in H2b.
  destruct (week_range t ltac:(lia) y Ey ltac:(lia)) as (w & Ew & Hw).
  exists y, w. split; [|lia].
  destruct (getISOWeek (Some t)) as [iy iw]. cbn in Ey, Ew. subst. reflexivity.
Qed.

Lemma month_range t : 0 <= MonthFromTime t <= 11.
Proof.
  unfold MonthFromTime. pose proof (civil_from_days_spec (Day t)) as H.
  destruct (civil_from_days (Day t)) as [[y m] d]. cbn. lia.
Qed.

Lemma app_empty s : (s ++ EmptyString)%string = s.
Proof. induction s as [|c s IH]; cbn; [reflexivity|]. rewrite IH. reflexivity. Qed.

Lemma weekKey_cmp y1 w1 y2 w2 :
  1000 <= y1 <= 9999 -> 1000 <= y2 <= 9999 -> 0 <= w1 <= 99 -> 0 <= w2 <= 99 ->
  str_cmp (weekKeyOf (mkISOWeek (Some y1) (Some w1))) (weekKeyOf (mkISOWeek (Some y2) (Some w2)))
  = then_cmp (Z.compare y1 y2) (then_cmp (Z.compare w1 w2) Eq).
Proof.
  intros Hy1 Hy2 Hw1 Hw2. unfold weekKeyOf. cbn [iso_year iso_week].
  rewrite str_cmp_year by assumption. cbn [append]. rewrite !str_cmp_same.
  rewrite <- (app_empty (padStart2 (toString (Some w1)))),
    <- (app_empty (padStart2 (toString (Some w2)))).
  rewrite str_cmp_two by assumption. reflexivity.
Qed.

Lemma monthKey_cmp t1 t2 :
  1000 <= YearFromTime t1 <= 9999 -> 1000 <= YearFromTime t2 <= 9999 ->
  str_cmp (getMonthKey (Some t1)) (getMonthKey (Some t2))
  = then_cmp (Z.compare (YearFromTime t1) (YearFromTime t2))
      (then_cmp (Z.compare (MonthFromTime t1) (MonthFromTime t2)) Eq).
Proof.
  intros Hy1 Hy2. unfold getMonthKey. cbn [getUTCFullYear getUTCMonth option_map].
  rewrite str_cmp_year by assumption. cbn [append]. rewrite !str_cmp_same.
  pose proof (month_range t1). pose proof (month_range t2).
  rewrite <- (app_empty (padStart2 (toString (Some (MonthFromTime t1 + 1))))),
    <- (app_empty (padStart2 (toString (Some (MonthFromTime t2 + 1))))).
  rewrite str_cmp_two by lia.
  replace (Z.compare (MonthFromTime t1 + 1) (MonthFromTime t2 + 1))
    with (Z.compare (MonthFromTime t1) (MonthFromTime t2)) by (rewrite !(Z.add_comm _ 1), Z.add_compare_mono_l; reflexivity).
  reflexivity.
Qed.

End Calendar.


(** * The tiers chosen by classifyBackups *)

Module TierFacts.
Import JSString GFS ListFacts ClassifyFacts.

(** Code-unit comparison is a total order. *)
Lemma str_cmp_refl s : str_cmp s s = Eq.
Proof. induction s as [|c s IH]; cbn; [reflexivity|]. rewrite N.compare_refl. exact IH. Qed.

Lemma str_cmp_eq s t : str_cmp s t = Eq -> s = t.
Proof.
  revert t; induction s as [|c s IH]; intros [|d t]; cbn; try discriminate; auto.
  destruct (N.compare (N_of_ascii c) (N_of_ascii d)) eqn:E; try discriminate.
  intro H. apply N.compare_eq in E.
  rewrite <- (ascii_N_embedding c), <- (ascii_N_embedding d), E. f_equal. auto.
Qed.

Lemma str_cmp_antisym s t : str_cmp t s = CompOpp (str_cmp s t).
Proof.
  revert t; induction s as [|c s IH]; intros [|d t]; cbn; try reflexivity.
  rewrite (N.compare_antisym (N_of_ascii c) (N_of_ascii d)).
  destruct (N.compare (N_of_ascii c) (N_of_ascii d)); cbn; auto.
Qed.

Lemma str_cmp_lt_trans s t u : str_cmp s t = Lt -> str_cmp t u = Lt -> str_cmp s u = Lt.
Proof.
  revert t u; induction s as [|c s IH]; intros [|d t] [|e u]; cbn; try discriminate; auto.
  destruct (N.compare_spec (N_of_ascii c) (N_of_ascii d)) as [H1|H1|H1];
  destruct (N.compare_spec (N_of_ascii d) (N_of_ascii e)) as [H2|H2|H2];
  try discriminate; intros A B.
  - replace (N.compare (N_of_ascii c) (N_of_ascii e)) with Eq
      by (symmetry; apply N.compare_eq_iff; congruence). eauto.
  - replace (N.compare (N_of_ascii c) (N_of_ascii e)) with Lt
      by (symmetry; apply N.compare_lt_iff; lia). reflexivity.
  - replace (N.compare (N_of_ascii c) (N_of_ascii e)) with Lt
      by (symmetry; apply N.compare_lt_iff; lia). reflexivity.
  - replace (N.compare (N_of_ascii c) (N_of_ascii e)) with Lt
      by (symmetry; apply N.compare_lt_iff; lia). reflexivity.
Qed.

(** [a] is not below [b] as a key: the order [sort_keys_desc] leaves. *)
Definition key_ge (a b : string * BackupManifest) : Prop := str_cmp (fst a) (fst b) <> Lt.

Lemma key_ge_trans x y z : key_ge x y -> key_ge y z -> key_ge x z.
Proof.
  unfold key_ge. intros H1 H2 H3.
  destruct (str_cmp (fst y) (fst z)) eqn:E; try congruence.
  - apply str_cmp_eq in E. rewrite E in H1. congruence.
  - assert (E' : str_cmp (fst z) (fst y) = Lt) by (rewrite str_cmp_antisym, E; reflexivity).
    apply H1. eapply str_cmp_lt_trans; eauto.
Qed.

Lemma sort_keys_desc_sorted c : StronglySorted key_ge (sort_keys_desc c).
Proof.
  apply Sorted_StronglySorted; [exact key_ge_trans|].
  apply sort_by_sorted; unfold localeCompare, key_ge.
  - intros x e H. destruct (str_cmp (fst e) (fst x)) eqn:E; try lia.
    rewrite str_cmp_antisym, E. discriminate.
  - intros x e H. destruct (str_cmp (fst e) (fst x)) eqn:E; try lia; discriminate.
Qed.

(** The groups of [group_by]: distinct keys, each member under its key. *)
Definition groups_ok (key : BackupManifest -> string) (g : Groups) : Prop :=
  NoDup (map fst g) /\ forall k ms, In (k, ms) g -> forall x, In x ms -> key x = k.

Lemma group_push_ok key m g : groups_ok key g -> groups_ok key (group_push (key m) m g).
Proof.
  induction g as [|[k' ms] r IH]; cbn; intros [Hn Hk].
  - split; [repeat constructor; intros []|].
    intros k ms [E|[]] x Hx. injection E as <- <-. destruct Hx as [<-|[]]. reflexivity.
  - inversion Hn as [|? ? Hnin Hn']; subst.
    destruct (String.eqb (key m) k') eqn:E.
    + apply String.eqb_eq in E. split; [exact Hn|].
      intros k ms' [E'|H] x Hx.
      * injection E' as <- <-. apply in_app_iff in Hx as [Hx|[<-|[]]]; [|exact E].
        eapply Hk; [left; reflexivity | exact Hx].
      * eapply Hk; [right; exact H | exact Hx].
    + apply String.eqb_neq in E.
      assert (IH' : groups_ok key r).
      { split; [exact Hn'|]. intros k ms' H. apply Hk. right. exact H. }
      destruct (IH IH') as [IHn IHk]. split.
      * cbn. constructor; [|exact IHn].
        assert (Hs : forall g0, In k' (map fst (group_push (key m) m g0)) ->
                       k' = key m \/ In k' (map fst g0)).
        { induction g0 as [|[a b] g0 IHg]; cbn; [intuition|].
          destruct (String.eqb (key m) a); cbn; intuition. }
        intro Hin. destruct (Hs r Hin); [congruence | contradiction].
      * intros k ms' [E'|H] x Hx.
        -- injection E' as <- <-. eapply Hk; [left; reflexivity | exact Hx].
        -- eapply IHk; eauto.
Qed.

Lemma group_by_ok key l : groups_ok key (group_by key l).
Proof.
  unfold group_by.
  assert (H : forall g, groups_ok key g ->
            groups_ok key (fold_left (fun g m => group_push (key m) m g) l g)).
  { induction l as [|x l IH]; intros g Hg; cbn; auto. apply IH, group_push_ok, Hg. }
  apply H. split; [constructor | intros k ms []].
Qed.

Lemma group_by_mem key l m :
  In m l -> exists ms, In (key m, ms) (group_by key l) /\ In m ms.
Proof.
  intro Hm. pose proof (group_by_perm key l) as Hp.
  apply (Permutation_in _ (Permutation_sym Hp)) in Hm.
  apply in_concat in Hm as [ms [Hms Hm]]. apply in_map_iff in Hms as [[k ms'] [E Hin]].
  cbn in E. subst ms'. exists ms. split; [|exact Hm].
  destruct (group_by_ok key l) as [_ Hk]. rewrite (Hk k ms Hin m Hm). exact Hin.
Qed.

Lemma group_by_sub key l k ms x : In (k, ms) (group_by key l) -> In x ms -> In x l.
Proof.
  intros H Hx. apply (Permutation_in _ (group_by_perm key l)).
  apply in_concat. exists ms. split; [|exact Hx]. apply in_map_iff. exists (k, ms). split; auto.
Qed.

Lemma groups_ok_unique key g k ms ms' :
  groups_ok key g -> In (k, ms) g -> In (k, ms') g -> ms = ms'.
Proof.
  intros [Hn _] H1 H2.
  pose proof (NoDup_map_eq fst g (k, ms) (k, ms') Hn H1 H2 eq_refl) as E.
  congruence.
Qed.

(** Each candidate is the oldest member of its group; every group with a
    member has one. *)
Lemma candidates_spec g k c :
  In (k, c) (candidates g) ->
  exists ms, In (k, ms) g /\ In c ms /\ forall x, In x ms -> time c <= time x.
Proof.
  unfold candidates. rewrite in_flat_map. intros [[k' ms] [Hin Hc]]. cbn [fst snd] in Hc.
  pose proof (sort_by_perm (fun a b => time a - time b) ms) as Hp.
  pose proof (sort_asc_sorted time ms) as Hs.
  destruct (sort_by (fun a b => time a - time b) ms) as [|m rest]; [destruct Hc|].
  destruct Hc as [E|[]]. injection E as <- <-.
  exists ms. split; [exact Hin|]. split.
  - eapply Permutation_in; [exact Hp | left; reflexivity].
  - intros x Hx. apply (Permutation_in _ (Permutation_sym Hp)) in Hx.
    destruct Hx as [<-|Hx]; [lia|].
    apply StronglySorted_inv in Hs as [_ Ha]. rewrite Forall_forall in Ha. exact (Ha x Hx).
Qed.

Lemma candidates_exists g k ms x :
  In (k, ms) g -> In x ms -> exists c, In (k, c) (candidates g).
Proof.
  intros Hin Hx. unfold candidates.
  pose proof (sort_by_perm (fun a b => time a - time b) ms) as Hp.
  destruct (sort_by (fun a b => time a - time b) ms) as [|m rest] eqn:E.
  - apply Permutation_nil in Hp. subst. destruct Hx.
  - exists m. apply in_flat_map. exists (k, ms). split; [exact Hin|]. cbn [fst snd]. rewrite E. left. reflexivity.
Qed.

Lemma candidates_cons k ms r :
  candidates ((k, ms) :: r) =
  match sort_by (fun a b => time a - time b) ms with
  | m :: _ => [(k, m)]
  | [] => []
  end ++ candidates r.
Proof. reflexivity. Qed.

Lemma candidates_keys g : NoDup (map fst g) -> NoDup (map fst (candidates g)).
Proof.
  induction g as [|[k ms] r IH]; intro Hn; [constructor|].
  rewrite candidates_cons. cbn [map fst] in Hn.
  inversion Hn as [|? ? Hnin Hn']; subst.
  destruct (sort_by (fun a b => time a - time b) ms) as [|m rest]; cbn [app map fst]; auto.
  constructor; auto. intro Hk. apply Hnin.
  apply in_map_iff in Hk as [[k' c] [E Hc]]. cbn in E. subst k'.
  destruct (candidates_spec r k c Hc) as (ms' & Hin & _).
  apply in_map_iff. exists (k, ms'). split; auto.
Qed.

(** The [n] candidates kept for a tier, out of the backups [L]. *)
Section Picks.
Variable key : BackupManifest -> string.
Variable L : list BackupManifest.
Variable n : nat.

Let P := firstn n (sort_keys_desc (candidates (group_by key L))).

Lemma picks_spec k m :
  In (k, m) P ->
  k = key m /\ In m L /\ forall m', In m' L -> key m' = k -> time m <= time m'.
Proof.
  intro H. apply in_firstn' in H.
  apply (Permutation_in _ (sort_by_perm _ _)) in H.
  destruct (candidates_spec _ k m H) as (ms & Hin & Hm & Hmin).
  pose proof (group_by_ok key L) as Hok.
  split; [symmetry; exact (proj2 Hok k ms Hin m Hm)|].
  split; [eapply group_by_sub; eauto|].
  intros m' Hm' Ek. destruct (group_by_mem key L m' Hm') as (ms' & Hin' & Hm'').
  rewrite Ek in Hin'. rewrite <- (groups_ok_unique key _ k ms ms' Hok Hin Hin') in Hm''.
  apply Hmin, Hm''.
Qed.

Lemma picks_keys : NoDup (map fst P).
Proof.
  unfold P. rewrite <- firstn_map. apply NoDup_firstn'.
  eapply Permutation_NoDup; [apply Permutation_map; symmetry; apply sort_by_perm|].
  apply candidates_keys, (proj1 (group_by_ok key L)).
Qed.

Lemma picks_newest k m m' :
  In (k, m) P -> In m' L -> str_cmp k (key m') = Lt -> exists c, In (key m', c) P.
Proof.
  intros H Hm' Hlt.
  destruct (group_by_mem key L m' Hm') as (ms & Hin & Hx).
  destruct (candidates_exists _ _ _ _ Hin Hx) as [c Hc].
  exists c. set (S := sort_keys_desc (candidates (group_by key L))).
  assert (Hc' : In (key m', c) S) by (eapply Permutation_in; [symmetry; apply sort_by_perm | exact Hc]).
  rewrite <- (firstn_skipn n S) in Hc'. apply in_app_iff in Hc' as [Hc'|Hc']; [exact Hc'|].
  exfalso. exact (StronglySorted_firstn_skipn key_ge n S (k, m) (key m', c)
                    (sort_keys_desc_sorted _) H Hc' Hlt).
Qed.

End Picks.


Lemma firstn_min_len {A} n (l : list A) : firstn (Nat.min n (List.length l)) l = firstn n l.
Proof.
  destruct (Nat.le_ge_cases n (List.length l)) as [H|H].
  - rewrite Nat.min_l by exact H. reflexivity.
  - rewrite Nat.min_r by exact H. rewrite firstn_all, firstn_all2 by exact H. reflexivity.
Qed.

Lemma in_unassigned a l m : In m (unassigned a l) <-> In m l /\ ~ In (id m) a.
Proof.
  unfold unassigned. rewrite filter_In, <- mem_true.
  destruct (mem (id m) a); cbn; intuition congruence.
Qed.

(** The records of classifyBackups, phase by phase, up to the final sort. *)
Lemma classify_parts B C :
  let sorted := sort_by desc_time B in
  let D := firstn (daily C) sorted in
  let WC := firstn (weekly C) (sort_keys_desc (candidates
              (group_by weekKey (unassigned (map id D) sorted)))) in
  let MC := firstn (monthly C) (sort_keys_desc (candidates
              (group_by monthKey (unassigned (map id D ++ map (fun km => id (snd km)) WC) sorted)))) in
  Permutation (classifyBackups B C)
    (map (fun m => mkTiered m Daily ("newest " ++ toString (Some (Z.of_nat (daily C))))) D ++
     map (fun km => mkTiered (snd km) Weekly ("week " ++ fst km)) WC ++
     map (fun km => mkTiered (snd km) Monthly ("month " ++ fst km)) MC ++
     map prunableOf (unassigned (map id D ++ map (fun km => id (snd km)) WC
                                 ++ map (fun km => id (snd km)) MC) sorted)).
Proof.
  intros sorted D WC MC. destruct B as [|b B0].
  - subst sorted D WC MC. cbn. rewrite ?firstn_nil. cbn. rewrite ?firstn_nil. cbn. constructor.
  - unfold classifyBackups.
    change (fun a b0 : BackupManifest => time b0 - time a) with desc_time.
    change (fun a b0 : TieredBackup => time (manifest b0) - time (manifest a)) with desc_time_t.
    fold sorted. cbn [fst snd]. rewrite assign_loop_spec. cbn [fst snd].
    rewrite assign_loop_spec. cbn [fst snd]. rewrite !Nat.sub_0_r.
    rewrite firstn_min_len. fold D. fold WC. fold MC.
    rewrite sort_by_perm. unfold prunableOf. rewrite <- !app_assoc. reflexivity.
Qed.

Lemma daily_ids B C i :
  In i (map id (firstn (daily C) (sort_by desc_time B))) <->
  exists t, In t (classifyBackups B C) /\ tier t = Daily /\ id (manifest t) = i.
Proof.
  pose proof (classify_parts B C) as Hp. cbv zeta in Hp. split.
  - intro H. apply in_map_iff in H as [m [<- Hm]].
    eexists. split; [eapply Permutation_in; [symmetry; exact Hp|]|].
    + apply in_app_iff. left. apply in_map_iff. exists m. split; [reflexivity | exact Hm].
    + split; reflexivity.
  - intros (t & Ht & Et & <-). apply (Permutation_in _ Hp) in Ht.
    rewrite !in_app_iff in Ht.
    destruct Ht as [Ht|[Ht|[Ht|Ht]]]; apply in_map_iff in Ht as [x [<- Hx]];
      cbn in Et; try discriminate.
    apply in_map. exact Hx.
Qed.


Local Abbreviation DL B C := (firstn (daily C) (sort_by desc_time B)).
Local Abbreviation WL B C := (firstn (weekly C) (sort_keys_desc (candidates
  (group_by weekKey (unassigned (map id (DL B C)) (sort_by desc_time B)))))).
Local Abbreviation ML B C := (firstn (monthly C) (sort_keys_desc (candidates
  (group_by monthKey (unassigned (map id (DL B C) ++ map (fun km => id (snd km)) (WL B C))
                       (sort_by desc_time B)))))).

Lemma weekly_rec B C m r :
  In (mkTiered m Weekly r) (classifyBackups B C) <->
  exists k, In (k, m) (WL B C) /\ r = ("week " ++ k)%string.
Proof.
  pose proof (classify_parts B C) as Hp. cbv zeta in Hp. split.
  - intro Ht. apply (Permutation_in _ Hp) in Ht. rewrite !in_app_iff in Ht.
    destruct Ht as [Ht|[Ht|[Ht|Ht]]]; apply in_map_iff in Ht as [x [E Hx]];
      try discriminate.
    injection E as E1 E2. destruct x as [k x]. cbn in E1, E2. subst. eauto.
  - intros (k & Hk & ->). eapply Permutation_in; [symmetry; exact Hp|].
    rewrite !in_app_iff. right. left. apply in_map_iff. exists (k, m). auto.
Qed.

Lemma monthly_rec B C m r :
  In (mkTiered m Monthly r) (classifyBackups B C) <->
  exists k, In (k, m) (ML B C) /\ r = ("month " ++ k)%string.
Proof.
  pose proof (classify_parts B C) as Hp. cbv zeta in Hp. split.
  - intro Ht. apply (Permutation_in _ Hp) in Ht. rewrite !in_app_iff in Ht.
    destruct Ht as [Ht|[Ht|[Ht|Ht]]]; apply in_map_iff in Ht as [x [E Hx]];
      try discriminate.
    injection E as E1 E2. destruct x as [k x]. cbn in E1, E2. subst. eauto.
  - intros (k & Hk & ->). eapply Permutation_in; [symmetry; exact Hp|].
    rewrite !in_app_iff. right. right. left. apply in_map_iff. exists (k, m). auto.
Qed.

Lemma weekly_ids B C i :
  In i (map (fun km => id (snd km)) (WL B C)) <->
  exists t, In t (classifyBackups B C) /\ tier t = Weekly /\ id (manifest t) = i.
Proof.
  split.
  - intro H. apply in_map_iff in H as [[k m] [<- Hk]].
    exists (mkTiered m Weekly ("week " ++ k)). split; [|split; reflexivity].
    apply weekly_rec. eauto.
  - intros ([m tr r] & Ht & Et & <-). cbn in Et. subst tr.
    apply weekly_rec in Ht as (k & Hk & _). apply in_map_iff. exists (k, m). auto.
Qed.

Lemma dw_ids B C i :
  In i (map id (DL B C) ++ map (fun km => id (snd km)) (WL B C)) <->
  exists t, In t (classifyBackups B C) /\ (tier t = Daily \/ tier t = Weekly) /\
            id (manifest t) = i.
Proof.
  rewrite in_app_iff, daily_ids, weekly_ids. split.
  - intros [(t & ? & ? & ?)|(t & ? & ? & ?)]; exists t; auto.
  - intros (t & ? & [?|?] & ?); [left|right]; exists t; auto.
Qed.

Lemma filter_map_const {A B} (p : B -> bool) (f : A -> B) b l :
  (forall x, p (f x) = b) -> filter p (map f l) = if b then map f l else [].
Proof.
  intro H. induction l as [|x l IH]; cbn; [destruct b; reflexivity|].
  rewrite H, IH. destruct b; reflexivity.
Qed.

Lemma filter_tier_parts B C (p : BackupTier -> bool) :
  Permutation (filter (fun t => p (tier t)) (classifyBackups B C))
    ((if p Daily then map (fun m => mkTiered m Daily
                              ("newest " ++ toString (Some (Z.of_nat (daily C))))) (DL B C) else []) ++
     (if p Weekly then map (fun km => mkTiered (snd km) Weekly ("week " ++ fst km)) (WL B C) else []) ++
     (if p Monthly then map (fun km => mkTiered (snd km) Monthly ("month " ++ fst km)) (ML B C) else []) ++
     (if p Prunable then map prunableOf (unassigned (map id (DL B C) ++
                map (fun km => id (snd km)) (WL B C) ++ map (fun km => id (snd km)) (ML B C))
                (sort_by desc_time B)) else [])).
Proof.
  pose proof (classify_parts B C) as Hp. cbv zeta in Hp.
  rewrite (Permutation_filter' _ _ _ Hp), !filter_app.
  rewrite !(filter_map_const (fun t => p (tier t)) _ (p Daily)) by reflexivity.
  rewrite !(filter_map_const (fun t => p (tier t)) _ (p Weekly)) by reflexivity.
  rewrite !(filter_map_const (fun t => p (tier t)) _ (p Monthly)) by reflexivity.
  rewrite !(filter_map_const (fun t => p (tier t)) _ (p Prunable)) by reflexivity.
  reflexivity.
Qed.

Lemma picks_key_map key L n :
  map (fun km => key (snd km)) (firstn n (sort_keys_desc (candidates (group_by key L)))) =
  map fst (firstn n (sort_keys_desc (candidates (group_by key L)))).
Proof.
  apply map_ext_in. intros [k m] H. cbn. symmetry. exact (proj1 (picks_spec key L n k m H)).
Qed.

End TierFacts.


(** The ISO week rule behind getISOWeek, and equality of period keys. *)
Module ISOWeekFacts.
Import JSDate JSString Calendar.

(** The Thursday [getISOWeek] moves to is day [7 * ((z + 3) / 7)]: weeks
    run Monday to Sunday, and day 0 (1970-01-01) was a Thursday. *)
Lemma thursday_day z :
  z + 4 - (if (z + 4) mod 7 =? 0 then 7 else (z + 4) mod 7) = 7 * ((z + 3) / 7).
Proof.
  destruct ((z + 4) mod 7 =? 0) eqn:E;
    [apply Z.eqb_eq in E | apply Z.eqb_neq in E]; Z.div_mod_to_equations; lia.
Qed.

Lemma getISOWeek_thursday t :
  four_digit (getUTCFullYear (Some t)) = true ->
  four_digit (iso_year (getISOWeek (Some t))) = true ->
  let th := 7 * ((Day t + 3) / 7) in
  let Y := YearFromTime (th * msPerDay) in
  getISOWeek (Some t) = mkISOWeek (Some Y) (Some ((th - days_from_civil Y 1 1) / 7 + 1)).
Proof.
  intros H1 H2 th Y.
  pose proof H1 as H1'. cbn [getUTCFullYear option_map four_digit] in H1'.
  apply andb_true_iff in H1' as [Ha Hb]. apply Z.leb_le in Ha. apply Z.leb_le in Hb.
  destruct (getISOWeek_spec t ltac:(lia)) as [HY HW].
  rewrite thursday_day in HY, HW. fold th in HY, HW.
  assert (EY : fst (fst (civil_from_days th)) = Y) by (unfold Y, YearFromTime; rewrite Day_mul; reflexivity).
  rewrite EY in HY, HW.
  rewrite HY in H2. cbn [four_digit] in H2. apply andb_true_iff in H2 as [Hc Hd].
  apply Z.leb_le in Hc. apply Z.leb_le in Hd.
  specialize (HW ltac:(lia)).
  destruct (getISOWeek (Some t)) as [iy iw]. cbn [iso_year iso_week] in HY, HW. subst iy iw.
  f_equal. f_equal. unfold ceil_div. Z.div_mod_to_equations. lia.
Qed.

Lemma str_cmp_eq_iff s t : str_cmp s t = Eq <-> s = t.
Proof.
  split; [apply TierFacts.str_cmp_eq | intros <-; apply TierFacts.str_cmp_refl].
Qed.

Lemma then_cmp_eq a1 a2 b1 b2 :
  then_cmp (Z.compare a1 a2) (then_cmp (Z.compare b1 b2) Eq) = Eq <-> a1 = a2 /\ b1 = b2.
Proof.
  destruct (Z.compare_spec a1 a2); destruct (Z.compare_spec b1 b2); cbn;
    split; intros; try discriminate; try reflexivity; lia.
Qed.

End ISOWeekFacts.


(** Facts about the prune and list commands' use of the retention logic. *)
Module CLIFacts.
Import JSString GFS ListFacts ClassifyFacts TierFacts CLI.

Lemma prunable_reason B C r :
  In r (classifyBackups B C) -> tier r = Prunable -> r = prunableOf (manifest r).
Proof.
  intros Hr Ht. pose proof (classify_parts B C) as Hp. cbv zeta in Hp.
  apply (Permutation_in _ Hp) in Hr.
  repeat rewrite in_app_iff in Hr.
  destruct Hr as [Hr|[Hr|[Hr|Hr]]]; apply in_map_iff in Hr as [x [<- _]];
    try discriminate Ht; reflexivity.
Qed.

Lemma prune_parts B C k :
  exists rest, Permutation (getBackupsToPrune B C k ++ rest) (filter isPrunable (classifyBackups B C)) /\
  (List.length (getBackupsToPrune B C k) <= Z.to_nat (Z.max 0 (Z.of_nat (List.length B) - k)))%nat.
Proof.
  destruct B as [|b B0]; [exists []; split; [constructor | cbn; lia]|].
  unfold getBackupsToPrune.
  set (S := sort_by _ _). exists (skipn (Z.to_nat (Z.max 0 (Z.of_nat (List.length (b :: B0)) - k))) S).
  split; [rewrite firstn_skipn; apply sort_by_perm | apply firstn_le_length].
Qed.

Lemma prune_in B C k r :
  In r (getBackupsToPrune B C k) -> In r (classifyBackups B C) /\ r = prunableOf (manifest r).
Proof.
  intro Hr. destruct (prune_parts B C k) as [rest [Hp _]].
  assert (H : In r (filter isPrunable (classifyBackups B C)))
    by (apply (Permutation_in _ Hp), in_app_iff; auto).
  apply filter_In in H as [H1 H2]. split; [exact H1|].
  apply (prunable_reason B C r H1). unfold isPrunable in H2. destruct (tier r); congruence.
Qed.

Lemma prune_ids_nodup B C k :
  NoDup (map id B) -> NoDup (map id (map manifest (getBackupsToPrune B C k))).
Proof.
  intro Hid. destruct (prune_parts B C k) as [rest [Hp _]].
  assert (Hc : NoDup (map id (map manifest (classifyBackups B C)))).
  { eapply Permutation_NoDup; [|exact Hid]. apply Permutation_map. symmetry. apply classify_perm, Hid. }
  assert (Hf : NoDup (map id (map manifest (filter isPrunable (classifyBackups B C))))).
  { rewrite map_map in *. apply NoDup_map_filter, Hc. }
  rewrite map_map in *. apply (Permutation_map (fun x => id (manifest x))) in Hp.
  rewrite map_app in Hp. apply Permutation_sym, Permutation_NoDup in Hp; [|exact Hf].
  eapply NoDup_app_remove_r. exact Hp.
Qed.

Lemma existsb_map' {A B} (f : A -> B) (p : B -> bool) l :
  existsb p (map f l) = existsb (fun x => p (f x)) l.
Proof. induction l as [|x l IH]; cbn; [reflexivity | rewrite IH; reflexivity]. Qed.

Lemma existsb_ext' {A} (p q : A -> bool) l :
  (forall x, p x = q x) -> existsb p l = existsb q l.
Proof. intro H. induction l as [|x l IH]; cbn; [reflexivity | rewrite H, IH; reflexivity]. Qed.

Lemma gfs_toKeep_unassigned B g k :
  snd (gfsPlan B g k) = unassigned (map id (map fst (fst (gfsPlan B g k)))) B.
Proof.
  unfold gfsPlan, unassigned. cbn [fst snd]. apply filter_ext. intro m. f_equal.
  unfold mem. rewrite !existsb_map'. apply existsb_ext'. intros t. cbn [fst].
  apply String.eqb_sym.
Qed.

Lemma gfs_fst B g k :
  map fst (fst (gfsPlan B g k)) = map manifest (getBackupsToPrune B g k).
Proof. unfold gfsPlan. cbn [fst]. rewrite map_map. reflexivity. Qed.

Lemma gfs_partition B g k :
  NoDup (map id B) ->
  Permutation (snd (gfsPlan B g k) ++ map fst (fst (gfsPlan B g k))) B.
Proof.
  intro Hid. rewrite gfs_toKeep_unassigned, gfs_fst.
  set (X := map manifest (getBackupsToPrune B g k)).
  pose proof (prune_ids_nodup B g k Hid) as HX. fold X in HX.
  rewrite Permutation_app_comm. symmetry. apply unassigned_split; [exact Hid| |].
  - intros m Hm. unfold X in Hm. apply in_map_iff in Hm as [r [<- Hr]].
    apply prune_in in Hr as [Hr _].
    apply (Permutation_in _ (classify_perm B g Hid)), in_map. exact Hr.
  - eapply NoDup_map_inv. exact HX.
Qed.

(** The age-based loop only appends. *)
Lemma age_fold_grows c d k l D K :
  let r := fold_left (ageStep c d k) l (D, K) in
  exists D2 K2, fst r = D ++ D2 /\ snd r = K ++ K2.
Proof.
  revert D K. induction l as [|m l IH]; intros D K; cbn [fold_left].
  - exists [], []. rewrite !app_nil_r. split; reflexivity.
  - cbn [ageStep]. destruct (_ <? k); [|destruct (c <=? time m)].
    + destruct (IH D (K ++ [m])) as (D2 & K2 & E1 & E2).
      exists D2, ([m] ++ K2). rewrite E1, E2, app_assoc. split; reflexivity.
    + destruct (IH D (K ++ [m])) as (D2 & K2 & E1 & E2).
      exists D2, ([m] ++ K2). rewrite E1, E2, app_assoc. split; reflexivity.
    + destruct (IH (D ++ [(m, Some ("older than " ++ toString (Some d) ++ " days")%string)]) K)
        as (D2 & K2 & E1 & E2).
      eexists. exists K2. rewrite E1, E2, <- app_assoc. split; reflexivity.
Qed.

Lemma age_fold_perm c d k l D K :
  let r := fold_left (ageStep c d k) l (D, K) in
  Permutation (snd r ++ map fst (fst r)) (K ++ map fst D ++ l).
Proof.
  revert D K. induction l as [|m l IH]; intros D K; cbn [fold_left].
  - rewrite app_nil_r. reflexivity.
  - cbn [ageStep]. destruct (_ <? k); [|destruct (c <=? time m)].
    + rewrite IH, <- !app_assoc. apply Permutation_app_head. cbn [app].
      apply Permutation_middle.
    + rewrite IH, <- !app_assoc. apply Permutation_app_head. cbn [app].
      apply Permutation_middle.
    + rewrite IH, map_app, <- !app_assoc. reflexivity.
Qed.

Lemma age_fold_deleted c d k l D K x :
  In x (fst (fold_left (ageStep c d k) l (D, K))) ->
  In x D \/ (In (fst x) l /\ time (fst x) < c /\
             snd x = Some ("older than " ++ toString (Some d) ++ " days")%string).
Proof.
  revert D K. induction l as [|m l IH]; intros D K; cbn [fold_left]; [auto|].
  cbn [ageStep]. destruct (_ <? k) eqn:E1; [|destruct (c <=? time m) eqn:E2].
  - intro H. destruct (IH _ _ H) as [?|(? & ? & ?)]; [auto | right; cbn; auto].
  - intro H. destruct (IH _ _ H) as [?|(? & ? & ?)]; [auto | right; cbn; auto].
  - intro H. apply Z.leb_gt in E2.
    destruct (IH _ _ H) as [Hx|(? & ? & ?)]; [|right; cbn; auto].
    apply in_app_iff in Hx as [Hx|[<-|[]]]; [auto|]. right. cbn. auto.
Qed.

Lemma age_fold_kept c d k l D K m :
  In m l -> c <= time m -> In m (snd (fold_left (ageStep c d k) l (D, K))).
Proof.
  revert D K. induction l as [|x l IH]; intros D K Hm Hc; [destruct Hm|]. cbn [fold_left].
  destruct Hm as [E|Hm]; [subst x|cbn [ageStep]; destruct (_ <? k); [|destruct (c <=? time x)];
                            apply IH; assumption].
  cbn [ageStep]. replace (c <=? time m) with true by (symmetry; apply Z.leb_le; exact Hc).
  assert (H : forall D K, In m (snd (fold_left (ageStep c d k) l (D, K ++ [m])))).
  { intros D' K'. destruct (age_fold_grows c d k l D' (K' ++ [m])) as (D2 & K2 & _ & E).
    rewrite E. apply in_app_iff. left. apply in_app_iff. right. left. reflexivity. }
  destruct (_ <? k); apply H.
Qed.

Lemma age_fold_floor c d k l D K :
  Z.min k (Z.of_nat (List.length K + List.length l)) <=
  Z.of_nat (List.length (snd (fold_left (ageStep c d k) l (D, K)))).
Proof.
  revert D K. induction l as [|m l IH]; intros D K; cbn [fold_left].
  - cbn [List.length snd]. rewrite Nat.add_0_r. lia.
  - cbn [ageStep]. destruct (Z.of_nat (List.length K) <? k) eqn:E1.
    + specialize (IH D (K ++ [m])). rewrite length_app in IH. cbn [List.length] in *. lia.
    + apply Z.ltb_ge in E1.
      assert (Hg : forall D' K', (List.length K' <= List.length
                     (snd (fold_left (ageStep c d k) l (D', K'))))%nat).
      { intros D' K'. destruct (age_fold_grows c d k l D' K') as (D2 & K2 & _ & E).
        rewrite E, length_app. lia. }
      destruct (c <=? time m).
      * specialize (Hg D (K ++ [m])). rewrite length_app in Hg. lia.
      * specialize (Hg (D ++ [(m, Some ("older than " ++ toString (Some d) ++ " days")%string)]) K). lia.
Qed.

Lemma age_fold_prefix c d k l D K :
  StronglySorted (fun a b => time b <= time a) l ->
  D = [] \/ (k <= Z.of_nat (List.length K) /\ forall m, In m l -> time m < c) ->
  let r := fold_left (ageStep c d k) l (D, K) in
  snd r ++ map fst (fst r) = K ++ map fst D ++ l.
Proof.
  revert D K. induction l as [|m l IH]; intros D K Hs Hinv; cbn [fold_left].
  - rewrite app_nil_r. reflexivity.
  - apply StronglySorted_inv in Hs as [Hs Hf]. rewrite Forall_forall in Hf.
    cbn [ageStep]. destruct Hinv as [->|[Hk Hc]].
    + destruct (Z.of_nat (List.length K) <? k) eqn:E1; [|destruct (c <=? time m) eqn:E2].
      * rewrite IH by auto. rewrite <- app_assoc. reflexivity.
      * rewrite IH by auto. rewrite <- app_assoc. reflexivity.
      * apply Z.ltb_ge in E1. apply Z.leb_gt in E2.
        rewrite IH; [reflexivity | exact Hs|].
        right. split; [exact E1|]. intros x Hx. specialize (Hf x Hx). lia.
    + replace (Z.of_nat (List.length K) <? k) with false by (symmetry; apply Z.ltb_ge; exact Hk).
      replace (c <=? time m) with false
        by (symmetry; apply Z.leb_gt; apply Hc; left; reflexivity).
      rewrite IH; [| exact Hs | right; split; [exact Hk | intros x Hx; apply Hc; right; exact Hx]].
      rewrite map_app, <- !app_assoc. reflexivity.
Qed.

(** [Map.get] after [Map.set]. *)
Lemma map_get_set_same {V} k (v : V) mp : map_get k (map_set k v mp) = Some v.
Proof.
  induction mp as [|[k' v'] r IH]; cbn; [rewrite String.eqb_refl; reflexivity|].
  destruct (String.eqb k k') eqn:E; cbn; rewrite ?E; [reflexivity | exact IH].
Qed.

Lemma map_get_set_other {V} k k' (v : V) mp :
  k <> k' -> map_get k (map_set k' v mp) = map_get k mp.
Proof.
  intro Hne. induction mp as [|[k0 v0] r IH]; cbn.
  - apply String.eqb_neq in Hne. rewrite Hne. reflexivity.
  - destruct (String.eqb k' k0) eqn:E; cbn.
    + apply String.eqb_eq in E. subst k0. apply String.eqb_neq in Hne. rewrite Hne. reflexivity.
    + destruct (String.eqb k k0); [reflexivity | exact IH].
Qed.

Section MapFold.
Context {A V : Type} (key : A -> string) (val : A -> V).

Lemma map_fold_other l mp k :
  (forall a, In a l -> key a <> k) ->
  map_get k (fold_left (fun tm a => map_set (key a) (val a) tm) l mp) = map_get k mp.
Proof.
  revert mp. induction l as [|a l IH]; intros mp Hl; cbn [fold_left]; [reflexivity|].
  rewrite IH by (intros; apply Hl; right; assumption).
  apply map_get_set_other. intro E. apply (Hl a); [left; reflexivity | symmetry; exact E].
Qed.

Lemma map_fold_in l mp a :
  NoDup (map key l) -> In a l ->
  map_get (key a) (fold_left (fun tm a => map_set (key a) (val a) tm) l mp) = Some (val a).
Proof.
  revert mp. induction l as [|b l IH]; intros mp Hn Ha; [destruct Ha|]. cbn [fold_left].
  cbn [map] in Hn. apply NoDup_cons_iff in Hn as [Hb Hn].
  destruct Ha as [<-|Ha]; [|apply IH; assumption].
  rewrite map_fold_other; [apply map_get_set_same|].
  intros x Hx E. apply Hb. rewrite <- E. apply in_map, Hx.
Qed.

Lemma map_fold_none l mp k :
  (forall a, In a l -> key a <> k) -> map_get k mp = None ->
  map_get k (fold_left (fun tm a => map_set (key a) (val a) tm) l mp) = None.
Proof. intros Hl Hm. rewrite map_fold_other; assumption. Qed.
End MapFold.

Lemma map_fold_some {A V} (key : A -> string) (val : A -> V) l mp k :
  map_get k mp <> None ->
  map_get k (fold_left (fun tm a => map_set (key a) (val a) tm) l mp) <> None.
Proof.
  revert mp. induction l as [|a l IH]; intros mp Hm; cbn [fold_left]; [exact Hm|].
  apply IH. destruct (String.eqb k (key a)) eqn:E.
  - apply String.eqb_eq in E. subst k. rewrite map_get_set_same. discriminate.
  - apply String.eqb_neq in E. rewrite map_get_set_other by exact E. exact Hm.
Qed.

Lemma map_fold_domain {A V} (key : A -> string) (val : A -> V) l k :
  map_get k (fold_left (fun tm a => map_set (key a) (val a) tm) l []) <> None <->
  In k (map key l).
Proof.
  split.
  - intro H. destruct (in_dec string_dec k (map key l)) as [Hin|Hout]; [exact Hin|].
    exfalso. apply H. apply map_fold_none; [|reflexivity].
    intros a Ha E. apply Hout. rewrite <- E. apply in_map, Ha.
  - intro H. apply in_map_iff in H as [a [<- Ha]].
    apply in_split in Ha as (l1 & l2 & ->). rewrite fold_left_app. cbn [fold_left].
    apply map_fold_some. rewrite map_get_set_same. discriminate.
Qed.

(** Every record of classifyBackups is about one of its input backups. *)
Lemma classify_manifest_in B C r :
  In r (classifyBackups B C) -> In (manifest r) B.
Proof.
  intro Hr. pose proof (classify_parts B C) as Hp. cbv zeta in Hp.
  apply (Permutation_in _ Hp) in Hr.
  assert (Hs : forall m, In m (sort_by desc_time B) -> In m B)
    by (intros m Hm; exact (Permutation_in _ (sort_by_perm _ B) Hm)).
  repeat rewrite in_app_iff in Hr.
  destruct Hr as [Hr|[Hr|[Hr|Hr]]]; apply in_map_iff in Hr as [x [<- Hx]]; cbn [manifest].
  - apply Hs, (in_firstn' _ _ _ Hx).
  - destruct x as [k m]. destruct (picks_spec _ _ _ k m Hx) as (_ & Hm & _).
    apply in_unassigned in Hm as [Hm _]. apply Hs, Hm.
  - destruct x as [k m]. destruct (picks_spec _ _ _ k m Hx) as (_ & Hm & _).
    apply in_unassigned in Hm as [Hm _]. apply Hs, Hm.
  - apply in_unassigned in Hx as [Hx _]. apply Hs, Hx.
Qed.

(** Every input backup's id is the id of some record of classifyBackups. *)
Lemma classify_ids_cover B C m :
  In m B -> exists r, In r (classifyBackups B C) /\ id (manifest r) = id m.
Proof.
  intro Hm. pose proof (classify_parts B C) as Hp. cbv zeta in Hp.
  set (sorted := sort_by desc_time B) in *.
  set (D := firstn (daily C) sorted) in *.
  set (WC := firstn (weekly C) _) in Hp.
  set (MC := firstn (monthly C) _) in Hp.
  apply Permutation_sym in Hp.
  destruct (in_dec string_dec (id m)
              (map id D ++ map (fun km => id (snd km)) WC ++ map (fun km => id (snd km)) MC))
    as [Hi|Ho].
  - repeat rewrite in_app_iff in Hi. destruct Hi as [Hi|[Hi|Hi]];
      apply in_map_iff in Hi as [x [Ex Hx]].
    + exists (mkTiered x Daily ("newest " ++ toString (Some (Z.of_nat (daily C))))%string).
      split; [apply (Permutation_in _ Hp), in_app_iff; left;
              apply in_map_iff; exists x; split; [reflexivity | exact Hx] | exact Ex].
    + exists (mkTiered (snd x) Weekly ("week " ++ fst x)%string).
      split; [apply (Permutation_in _ Hp), in_app_iff; right; apply in_app_iff; left;
              apply in_map_iff; exists x; split; [reflexivity | exact Hx]
             | exact Ex].
    + exists (mkTiered (snd x) Monthly ("month " ++ fst x)%string).
      split; [apply (Permutation_in _ Hp), in_app_iff; right; apply in_app_iff; right;
              apply in_app_iff; left;
              apply in_map_iff; exists x; split; [reflexivity | exact Hx]
             | exact Ex].
  - exists (prunableOf m). split; [|reflexivity].
    apply (Permutation_in _ Hp). repeat (apply in_app_iff; right). apply in_map.
    apply in_unassigned. split; [|exact Ho].
    apply (Permutation_in _ (Permutation_sym (sort_by_perm _ B)) Hm).
Qed.

End CLIFacts.


(** * The claims *)

Module Claims.
Import GFS ListFacts ClassifyFacts Calendar Examples.

(** C1: for distinct identifiers, classifyBackups returns one record per
    input backup: as many records as backups, the backups of the records
    form a permutation of the input, and no backup carries two records
    (hence two tiers). *)
Theorem classify_bijection (B : list BackupManifest) (C : GFSConfig) :
  NoDup (map id B) ->
  List.length (classifyBackups B C) = List.length B /\
  Permutation (map manifest (classifyBackups B C)) B /\
  (forall r1 r2, In r1 (classifyBackups B C) -> In r2 (classifyBackups B C) ->
                 manifest r1 = manifest r2 -> r1 = r2).
Proof.
  intro Hid. pose proof (classify_perm B C Hid) as Hp.
  split; [apply classify_length, Hid|]. split; [exact Hp|].
  intros r1 r2 H1 H2 E. eapply NoDup_map_eq; eauto.
  eapply Permutation_NoDup; [symmetry; exact Hp|]. eapply NoDup_map_inv; eauto.
Qed.

Lemma classify_bijection_witness :
  NoDup (map id three) /\
  List.length (classifyBackups three (cfg 1 0 0)) = List.length three /\
  Permutation (map manifest (classifyBackups three (cfg 1 0 0))) three /\
  (forall r1 r2, In r1 (classifyBackups three (cfg 1 0 0)) ->
                 In r2 (classifyBackups three (cfg 1 0 0)) ->
                 manifest r1 = manifest r2 -> r1 = r2).
Proof.
  assert (H : NoDup (map id three)).
  { repeat constructor; simpl; intuition discriminate. }
  split; [exact H | apply (classify_bijection three (cfg 1 0 0) H)].
Defined.

(** C3: at most daily + weekly + monthly records are not prunable, and with
    all three counts zero every record is prunable. *)
Theorem classify_tier_bound (B : list BackupManifest) (C : GFSConfig) (en : bool) :
  (List.length (filter (fun t => negb (isPrunable t)) (classifyBackups B C))
     <= daily C + weekly C + monthly C)%nat /\
  Forall (fun t => tier t = Prunable) (classifyBackups B (mkConfig en 0 0 0)).
Proof.
  destruct B as [|b B0]; [split; simpl; [lia | constructor]|].
  split.
  - destruct (classify_shape b B0 C) as
      (D & W & M & TD & TW & TM & Heq & HD & HW & HM & HTD & HTW & HTM & HDf & HWl & HMl & _ & _).
    rewrite Heq.
    rewrite (Permutation_length (Permutation_filter' _ _ _ (sort_by_perm _ _))).
    rewrite !filter_app, !length_app.
    assert (Hp : filter (fun t => negb (isPrunable t))
                   (map prunableOf (unassigned (map id D ++ map id W ++ map id M)
                      (sort_by desc_time (b :: B0)))) = []).
    { generalize (unassigned (map id D ++ map id W ++ map id M) (sort_by desc_time (b :: B0))).
      intro l. induction l as [|x l IH]; cbn; auto. }
    rewrite Hp. simpl.
    pose proof (length_filter_le' (fun t => negb (isPrunable t)) TD).
    pose proof (length_filter_le' (fun t => negb (isPrunable t)) TW).
    pose proof (length_filter_le' (fun t => negb (isPrunable t)) TM).
    assert (List.length TD <= daily C)%nat.
    { rewrite <- (length_map manifest), HD, HDf, length_firstn. lia. }
    assert (List.length TW <= weekly C)%nat by (rewrite <- (length_map manifest), HW; exact HWl).
    assert (List.length TM <= monthly C)%nat by (rewrite <- (length_map manifest), HM; exact HMl).
    lia.
  - destruct (classify_shape b B0 (mkConfig en 0 0 0)) as
      (D & W & M & TD & TW & TM & Heq & HD & HW & HM & _ & _ & _ & HDf & HWl & HMl & _ & _).
    cbn [daily weekly monthly] in *.
    assert (TD = []) as -> by (destruct TD; [auto|]; rewrite HDf in HD; discriminate).
    assert (TW = []) as ->.
    { destruct TW; [auto|]. rewrite <- HW in HWl. simpl in HWl. lia. }
    assert (TM = []) as ->.
    { destruct TM; [auto|]. rewrite <- HM in HMl. simpl in HMl. lia. }
    rewrite Heq. apply Forall_forall. intros x Hx.
    eapply Permutation_in in Hx; [|apply sort_by_perm].
    simpl in Hx. apply in_map_iff in Hx as [m [<- _]]. reflexivity.
Qed.

(** C9: getBackupsToPrune only selects: every returned record is prunable
    and is, unchanged, a record of classifyBackups; the returned records
    are a part of the prunable records. *)
Theorem prune_only_prunable (B : list BackupManifest) (C : GFSConfig) (minKeep : Z) :
  Forall (fun r => tier r = Prunable /\ In r (classifyBackups B C))
         (getBackupsToPrune B C minKeep) /\
  exists rest, Permutation (getBackupsToPrune B C minKeep ++ rest)
                           (filter isPrunable (classifyBackups B C)).
Proof.
  destruct B as [|b B0]; [split; [constructor | exists []; constructor]|].
  unfold getBackupsToPrune.
  set (P := filter isPrunable (classifyBackups (b :: B0) C)).
  set (k := Z.to_nat _).
  split.
  - apply Forall_forall. intros r Hr.
    apply in_firstn' in Hr. eapply Permutation_in in Hr; [|apply sort_by_perm].
    apply filter_In in Hr as [Hr Hp]. split; [|exact Hr].
    unfold isPrunable in Hp. destruct (tier r); congruence.
  - exists (skipn k (sort_by (fun a b => time (manifest a) - time (manifest b)) P)).
    rewrite firstn_skipn. apply sort_by_perm.
Qed.

(** C4: getBackupsToPrune returns the oldest
    min(p, max(0, |B| - minKeep)) prunable records; in particular at most
    max(0, |B| - minKeep) and none when |B| <= minKeep.  On three backups
    with all counts zero and minKeep = 2 it returns the oldest backup. *)
Theorem prune_oldest_first (B : list BackupManifest) (C : GFSConfig) (minKeep : Z) :
  let P := filter isPrunable (classifyBackups B C) in
  let cap := Z.to_nat (Z.max 0 (Z.of_nat (List.length B) - minKeep)) in
  let R := getBackupsToPrune B C minKeep in
  List.length R = Nat.min (List.length P) cap /\
  (exists rest, Permutation (R ++ rest) P /\
     forall x y, In x R -> In y rest -> time (manifest x) <= time (manifest y)) /\
  (List.length R <= cap)%nat /\
  (Z.of_nat (List.length B) <= minKeep -> R = []) /\
  getBackupsToPrune three (cfg 0 0 0) 2 = [mkTiered b1 Prunable "exceeds retention"].
Proof.
  intros P cap R.
  cut (List.length R = Nat.min (List.length P) cap /\
       (exists rest, Permutation (R ++ rest) P /\
          forall x y, In x R -> In y rest -> time (manifest x) <= time (manifest y)) /\
       (List.length R <= cap)%nat /\
       (Z.of_nat (List.length B) <= minKeep -> R = [])).
  { intros (H1 & H2 & H3 & H4).
    refine (conj H1 (conj H2 (conj H3 (conj H4 _)))). vm_compute. reflexivity. }
  destruct B as [|b B0].
  { assert (R = []) as -> by reflexivity. assert (P = []) as -> by reflexivity.
    split; [simpl; lia|]. split; [|split; [simpl; lia | intros _; reflexivity]].
    exists []. split; [constructor | intros x y []]. }
  set (S := sort_by (fun a b => time (manifest a) - time (manifest b)) P).
  assert (HR : R = firstn cap S) by reflexivity.
  assert (HSp : Permutation S P) by apply sort_by_perm.
  rewrite HR. repeat split.
  - rewrite length_firstn, (Permutation_length HSp). lia.
  - exists (skipn cap S). split.
    + rewrite firstn_skipn. exact HSp.
    + intros x y Hx Hy.
      exact (StronglySorted_firstn_skipn _ cap S x y
               (sort_asc_sorted (fun t => time (manifest t)) P) Hx Hy).
  - apply firstn_le_length.
  - intro Hle. replace cap with 0%nat by (subst cap; lia). reflexivity.
Qed.

(** C5: with minKeep = 0 getBackupsToPrune returns exactly the prunable
    records of classifyBackups (up to order). *)
Theorem prune_no_floor (B : list BackupManifest) (C : GFSConfig) :
  NoDup (map id B) ->
  Permutation (getBackupsToPrune B C 0) (filter isPrunable (classifyBackups B C)).
Proof.
  intro Hid. destruct B as [|b B0]; [constructor|].
  unfold getBackupsToPrune.
  set (P := filter isPrunable (classifyBackups (b :: B0) C)).
  rewrite firstn_all2; [apply sort_by_perm|].
  rewrite (Permutation_length (sort_by_perm _ P)).
  pose proof (length_filter_le' isPrunable (classifyBackups (b :: B0) C)) as Hl.
  rewrite (classify_length _ _ Hid) in Hl. fold P in Hl. lia.
Qed.

Lemma prune_no_floor_witness :
  NoDup (map id three) /\
  Permutation (getBackupsToPrune three (cfg 1 0 0) 0)
              (filter isPrunable (classifyBackups three (cfg 1 0 0))).
Proof.
  assert (H : NoDup (map id three)).
  { repeat constructor; simpl; intuition discriminate. }
  split; [exact H | apply (prune_no_floor three (cfg 1 0 0) H)].
Defined.

(** C10: with distinct identifiers and timestamps, classifyBackups lists
    its records newest first, whatever their tiers. *)
Theorem classify_sorted_desc (B : list BackupManifest) (C : GFSConfig) :
  NoDup (map id B) -> NoDup (map time B) ->
  Sorted (fun r1 r2 => time (manifest r2) < time (manifest r1)) (classifyBackups B C).
Proof.
  intros Hid Hts. destruct B as [|b B0]; [constructor|].
  apply StronglySorted_Sorted.
  pose proof (classify_perm (b :: B0) C Hid) as Hp.
  apply (StronglySorted_strict (fun t => time (manifest t))).
  - destruct (classify_shape b B0 C) as (D & W & M & TD & TW & TM & Heq & _).
    rewrite Heq. apply (sort_desc_sorted (fun t => time (manifest t))).
  - rewrite <- (map_map manifest time).
    eapply Permutation_NoDup; [|exact Hts]. symmetry. apply Permutation_map, Hp.
Qed.

Lemma classify_sorted_desc_witness :
  NoDup (map id three) /\ NoDup (map time three) /\
  Sorted (fun r1 r2 => time (manifest r2) < time (manifest r1))
         (classifyBackups three (cfg 1 1 1)).
Proof.
  assert (H1 : NoDup (map id three)).
  { repeat constructor; simpl; intuition discriminate. }
  assert (H2 : NoDup (map time three)).
  { vm_compute. repeat constructor; simpl; intuition discriminate. }
  split; [exact H1 | split; [exact H2 | apply (classify_sorted_desc three (cfg 1 1 1) H1 H2)]].
Defined.

(** C2, as stated (distinct identifiers only), fails: two backups with
    the same instant and one daily slot; the stable sort keeps the input
    order of the tie, so the daily record goes to whichever comes first. *)
Lemma classify_order_ties_counterexample :
  ~ (forall (B B' : list BackupManifest) (C : GFSConfig),
       NoDup (map id B) -> Permutation B B' ->
       forall r, In r (classifyBackups B C) <-> In r (classifyBackups B' C)).
Proof.
  intro H.
  assert (E1 : classifyBackups [ta; tb] (cfg 1 0 0)
               = [mkTiered ta Daily "newest 1"; mkTiered tb Prunable "exceeds retention"])
    by (vm_compute; reflexivity).
  assert (E2 : classifyBackups [tb; ta] (cfg 1 0 0)
               = [mkTiered tb Daily "newest 1"; mkTiered ta Prunable "exceeds retention"])
    by (vm_compute; reflexivity).
  assert (Hn : NoDup (map id [ta; tb])) by (repeat constructor; simpl; intuition discriminate).
  specialize (H [ta; tb] [tb; ta] (cfg 1 0 0) Hn (perm_swap tb ta []) (mkTiered ta Daily "newest 1")).
  rewrite E1, E2 in H. destruct H as [H _].
  specialize (H (or_introl eq_refl)).
  simpl in H. destruct H as [H|[H|[]]]; discriminate H.
Qed.

(** C2, amended: when the timestamps are distinct as well, classifyBackups
    does not depend on the order of its input (it returns the same list). *)
Theorem classify_perm_invariant (B B' : list BackupManifest) (C : GFSConfig) :
  NoDup (map time B) -> Permutation B B' -> classifyBackups B' C = classifyBackups B C.
Proof.
  intros Hts Hp.
  assert (Hs : sort_by desc_time B' = sort_by desc_time B).
  { apply (StronglySorted_perm_eq (fun a b => time b < time a)).
    - intros x. lia.
    - intros x y. lia.
    - apply StronglySorted_strict; [apply (sort_desc_sorted time)|].
      eapply Permutation_NoDup; [|exact Hts].
      apply Permutation_map. rewrite sort_by_perm. exact Hp.
    - apply StronglySorted_strict; [apply (sort_desc_sorted time)|].
      eapply Permutation_NoDup; [|exact Hts].
      apply Permutation_map. symmetry. apply sort_by_perm.
    - rewrite !sort_by_perm. first [exact Hp | symmetry; exact Hp]. }
  destruct B as [|b B0], B' as [|b' B0'].
  - reflexivity.
  - apply Permutation_nil in Hp. discriminate.
  - symmetry in Hp. apply Permutation_nil in Hp. discriminate.
  - unfold classifyBackups.
    change (fun a b0 : BackupManifest => time b0 - time a) with desc_time.
    rewrite Hs. reflexivity.
Qed.

Lemma classify_perm_invariant_witness :
  NoDup (map time three) /\ Permutation three [b1; b2; b3] /\
  classifyBackups [b1; b2; b3] (cfg 1 1 1) = classifyBackups three (cfg 1 1 1).
Proof.
  assert (H1 : NoDup (map time three)).
  { vm_compute. repeat constructor; simpl; intuition discriminate. }
  assert (H2 : Permutation three [b1; b2; b3]).
  { unfold three. apply (Permutation_trans (l' := [b2; b1; b3])).
    - apply perm_skip, perm_swap.
    - apply perm_swap. }
  split; [exact H1 | split; [exact H2 | apply (classify_perm_invariant three [b1; b2; b3] (cfg 1 1 1) H1 H2)]].
Defined.

(** C6: getISOWeek at 2025-12-29T00:00Z is week 1 of 2026, at
    2025-12-28T00:00Z week 52 of 2025, and at 2021-01-01T00:00Z week 53
    of 2020. *)
Theorem getISOWeek_examples :
  getISOWeek (Some (utc 2025 12 29 0 0 0)) = mkISOWeek (Some 2026) (Some 1) /\
  getISOWeek (Some (utc 2025 12 28 0 0 0)) = mkISOWeek (Some 2025) (Some 52) /\
  getISOWeek (Some (utc 2021 1 1 0 0 0)) = mkISOWeek (Some 2020) (Some 53).
Proof.
  split; [|split]; vm_compute; reflexivity.
Qed.

(** C7 does not hold of the code: at the valid instant 0100-01-01T00:00Z
    the Thursday of the week lies in year 99, and [Date.UTC(99, 0, 1)]
    reads 99 as 1999, so the week number is -99085; at the earliest valid
    instant -8.64e15 ms, [Date.UTC(-271821, 0, 1)] is out of range and the
    week number is NaN.  So the week is not always in 1..53. *)
Theorem getISOWeek_out_of_range :
  Z.abs (utc 100 1 1 0 0 0) <= maxTime /\
  getISOWeek (Some (utc 100 1 1 0 0 0)) = mkISOWeek (Some 99) (Some (-99085)) /\
  Z.abs (- maxTime) <= maxTime /\
  getISOWeek (Some (- maxTime)) = mkISOWeek (Some (-271821)) None /\
  ~ (forall t, Z.abs t <= maxTime ->
       exists w, iso_week (getISOWeek (Some t)) = Some w /\ 1 <= w <= 53).
Proof.
  assert (E1 : getISOWeek (Some (utc 100 1 1 0 0 0)) = mkISOWeek (Some 99) (Some (-99085)))
    by (vm_compute; reflexivity).
  assert (V1 : Z.abs (utc 100 1 1 0 0 0) <= maxTime) by (vm_compute; congruence).
  split; [exact V1|]. split; [exact E1|].
  split; [vm_compute; congruence|]. split; [vm_compute; reflexivity|].
  intros H. destruct (H _ V1) as (w & Hw & Hr).
  rewrite E1 in Hw. cbn in Hw. injection Hw as <-. lia.
Qed.

(** C8, as stated for every valid instant, fails: years are printed
    without padding, so the week key of 0999-06-15 ("999-W24") sorts after
    that of 1000-06-15 ("1000-W24") although its ISO week is earlier. *)
Lemma period_keys_unpadded_counterexample :
  ~ (forall t1 t2 : Z, Z.abs t1 <= maxTime -> Z.abs t2 <= maxTime ->
       (str_lt (weekKeyOf (getISOWeek (Some t1))) (weekKeyOf (getISOWeek (Some t2))) <->
        isoweek_lt (getISOWeek (Some t1)) (getISOWeek (Some t2))) /\
       (str_lt (getMonthKey (Some t1)) (getMonthKey (Some t2)) <-> ym_lt t1 t2)).
Proof.
  intros H.
  assert (V1 : Z.abs (utc 999 6 15 0 0 0) <= maxTime) by (vm_compute; congruence).
  assert (V2 : Z.abs (utc 1000 6 15 0 0 0) <= maxTime) by (vm_compute; congruence).
  destruct (H _ _ V1 V2) as [[_ Hw] _].
  assert (Hi : isoweek_lt (getISOWeek (Some (utc 999 6 15 0 0 0)))
                          (getISOWeek (Some (utc 1000 6 15 0 0 0))))
    by (vm_compute; left; reflexivity).
  specialize (Hw Hi). unfold str_lt in Hw. vm_compute in Hw. discriminate Hw.
Qed.

(** C8, code bug: the unpadded year makes classifyBackups serve the older
    period first.  0999-06-15 lies in an earlier ISO week and an earlier
    month than 1000-06-15, yet its keys "999-W24" and "999-06" compare
    above "1000-W24" and "1000-06"; with one weekly slot (or one monthly
    slot) and no daily slot, the older backup gets the weekly (monthly)
    record and the newer one is prunable, against the code's comments
    "newest weeks first" and "newest months first". *)
Theorem period_keys_promote_older :
  isoweek_lt (getISOWeek (Some (timestamp MoreExamples.y999)))
             (getISOWeek (Some (timestamp MoreExamples.y1000))) /\
  str_lt (weekKey MoreExamples.y1000) (weekKey MoreExamples.y999) /\
  classifyBackups [MoreExamples.y1000; MoreExamples.y999] (cfg 0 1 0) =
    [mkTiered MoreExamples.y1000 Prunable "exceeds retention";
     mkTiered MoreExamples.y999 Weekly "week 999-W24"] /\
  ym_lt (timestamp MoreExamples.y999) (timestamp MoreExamples.y1000) /\
  str_lt (monthKey MoreExamples.y1000) (monthKey MoreExamples.y999) /\
  classifyBackups [MoreExamples.y1000; MoreExamples.y999] (cfg 0 0 1) =
    [mkTiered MoreExamples.y1000 Prunable "exceeds retention";
     mkTiered MoreExamples.y999 Monthly "month 999-06"].
Proof.
  split; [vm_compute; left; reflexivity|].
  split; [unfold str_lt; vm_compute; reflexivity|].
  split; [vm_compute; reflexivity|].
  split; [vm_compute; left; reflexivity|].
  split; [unfold str_lt; vm_compute; reflexivity|].
  vm_compute; reflexivity.
Qed.

(** Where the keys do work: for instants whose UTC year and ISO
    week-numbering year both have four digits, the week key compares below
    another exactly when its ISO (year, week) is earlier, and the month key
    exactly when the UTC (year, month) is earlier. *)
Theorem period_keys_ordered (t1 t2 : Z) :
  four_digit (getUTCFullYear (Some t1)) = true ->
  four_digit (getUTCFullYear (Some t2)) = true ->
  four_digit (iso_year (getISOWeek (Some t1))) = true ->
  four_digit (iso_year (getISOWeek (Some t2))) = true ->
  (str_lt (weekKeyOf (getISOWeek (Some t1))) (weekKeyOf (getISOWeek (Some t2))) <->
   isoweek_lt (getISOWeek (Some t1)) (getISOWeek (Some t2))) /\
  (str_lt (getMonthKey (Some t1)) (getMonthKey (Some t2)) <-> ym_lt t1 t2).
Proof.
  intros Y1 Y2 I1 I2.
  assert (B1 : 1000 <= YearFromTime t1 <= 9999).
  { pose proof Y1 as Hy. cbn [getUTCFullYear option_map four_digit] in Hy.
    apply andb_true_iff in Hy as [Ha Hb].
    apply Z.leb_le in Ha. apply Z.leb_le in Hb. lia. }
  assert (B2 : 1000 <= YearFromTime t2 <= 9999).
  { pose proof Y2 as Hy. cbn [getUTCFullYear option_map four_digit] in Hy.
    apply andb_true_iff in Hy as [Ha Hb].
    apply Z.leb_le in Ha. apply Z.leb_le in Hb. lia. }
  destruct (week_key_facts t1 Y1 I1) as (y1 & w1 & E1 & Hy1 & Hw1).
  destruct (week_key_facts t2 Y2 I2) as (y2 & w2 & E2 & Hy2 & Hw2).
  split.
  - rewrite E1, E2. unfold str_lt.
    rewrite weekKey_cmp by lia. apply lex_lt.
  - unfold str_lt, ym_lt. rewrite monthKey_cmp by assumption. apply lex_lt.
Qed.

Lemma period_keys_ordered_witness :
  four_digit (getUTCFullYear (Some (utc 2025 12 29 0 0 0))) = true /\
  four_digit (getUTCFullYear (Some (utc 2026 3 1 0 0 0))) = true /\
  four_digit (iso_year (getISOWeek (Some (utc 2025 12 29 0 0 0)))) = true /\
  four_digit (iso_year (getISOWeek (Some (utc 2026 3 1 0 0 0)))) = true /\
  ((str_lt (weekKeyOf (getISOWeek (Some (utc 2025 12 29 0 0 0))))
           (weekKeyOf (getISOWeek (Some (utc 2026 3 1 0 0 0)))) <->
    isoweek_lt (getISOWeek (Some (utc 2025 12 29 0 0 0)))
               (getISOWeek (Some (utc 2026 3 1 0 0 0)))) /\
   (str_lt (getMonthKey (Some (utc 2025 12 29 0 0 0)))
           (getMonthKey (Some (utc 2026 3 1 0 0 0))) <->
    ym_lt (utc 2025 12 29 0 0 0) (utc 2026 3 1 0 0 0))).
Proof.
  assert (H1 : four_digit (getUTCFullYear (Some (utc 2025 12 29 0 0 0))) = true)
    by (vm_compute; reflexivity).
  assert (H2 : four_digit (getUTCFullYear (Some (utc 2026 3 1 0 0 0))) = true)
    by (vm_compute; reflexivity).
  assert (H3 : four_digit (iso_year (getISOWeek (Some (utc 2025 12 29 0 0 0)))) = true)
    by (vm_compute; reflexivity).
  assert (H4 : four_digit (iso_year (getISOWeek (Some (utc 2026 3 1 0 0 0)))) = true)
    by (vm_compute; reflexivity).
  split; [exact H1|]. split; [exact H2|]. split; [exact H3|]. split; [exact H4|].
  exact (period_keys_ordered _ _ H1 H2 H3 H4).
Defined.

End Claims.


(** * Further properties of the code *)

Module Extras.
Import JSDate JSString GFS ListFacts ClassifyFacts Calendar TierFacts ISOWeekFacts MoreExamples Examples.

(** Phase 1: a backup gets a daily record exactly when it is among the
    [daily] newest backups, with reason "newest <daily>". *)
Theorem classify_daily_tier (B : list BackupManifest) (C : GFSConfig) m r :
  In (mkTiered m Daily r) (classifyBackups B C) <->
  In m (firstn (daily C) (sort_by desc_time B)) /\
  r = ("newest " ++ toString (Some (Z.of_nat (daily C))))%string.
Proof.
  pose proof (classify_parts B C) as Hp. cbv zeta in Hp. split.
  - intro Ht. apply (Permutation_in _ Hp) in Ht. rewrite !in_app_iff in Ht.
    destruct Ht as [Ht|[Ht|[Ht|Ht]]]; apply in_map_iff in Ht as [x [E Hx]];
      try discriminate.
    injection E as E1 E2. subst. auto.
  - intros [Hm ->]. eapply Permutation_in; [symmetry; exact Hp|].
    apply in_app_iff. left. apply in_map_iff. exists m. auto.
Qed.

(** Phase 2: a weekly record names the week key of its backup, belongs to
    a backup that has no daily record, and that backup is the oldest of
    the backups of its week that have no daily record. *)
Theorem classify_weekly_oldest (B : list BackupManifest) (C : GFSConfig) m r :
  In (mkTiered m Weekly r) (classifyBackups B C) ->
  r = ("week " ++ weekKey m)%string /\ In m B /\
  ~ (exists t, In t (classifyBackups B C) /\ tier t = Daily /\ id (manifest t) = id m) /\
  forall m', In m' B ->
    ~ (exists t, In t (classifyBackups B C) /\ tier t = Daily /\ id (manifest t) = id m') ->
    weekKey m' = weekKey m -> time m <= time m'.
Proof.
  intro H. apply weekly_rec in H as (k & Hk & ->).
  destruct (picks_spec _ _ _ k m Hk) as (-> & HmL & Hmin).
  apply in_unassigned in HmL as [Hms Hnd].
  split; [reflexivity|]. split.
  { eapply Permutation_in; [apply sort_by_perm | exact Hms]. }
  split; [rewrite <- daily_ids; exact Hnd|].
  intros m' Hm' Hnd' Ek. apply Hmin; [|exact Ek].
  apply in_unassigned. split.
  - eapply Permutation_in; [symmetry; apply sort_by_perm | exact Hm'].
  - rewrite daily_ids. exact Hnd'.
Qed.

Lemma classify_weekly_oldest_witness :
  In (mkTiered wa Weekly "week 2025-W02") (classifyBackups spread (cfg 1 2 0)) /\
  ("week 2025-W02" = "week " ++ weekKey wa)%string /\ In wa spread /\
  ~ (exists t, In t (classifyBackups spread (cfg 1 2 0)) /\ tier t = Daily /\
               id (manifest t) = id wa) /\
  forall m', In m' spread ->
    ~ (exists t, In t (classifyBackups spread (cfg 1 2 0)) /\ tier t = Daily /\
                 id (manifest t) = id m') ->
    weekKey m' = weekKey wa -> time wa <= time m'.
Proof.
  assert (H : In (mkTiered wa Weekly "week 2025-W02") (classifyBackups spread (cfg 1 2 0))).
  { vm_compute; repeat (first [left; reflexivity | right]). }
  split; [exact H|]. exact (classify_weekly_oldest spread (cfg 1 2 0) wa _ H).
Defined.

(** Phase 2: no two weekly records share a week key, and there are at
    most [weekly] of them. *)
Theorem classify_weekly_keys (B : list BackupManifest) (C : GFSConfig) :
  let W := filter (fun t => match tier t with Weekly => true | _ => false end)
                  (classifyBackups B C) in
  NoDup (map (fun t => weekKey (manifest t)) W) /\ (List.length W <= weekly C)%nat.
Proof.
  intro W.
  pose proof (filter_tier_parts B C (fun x => match x with Weekly => true | _ => false end)) as Hp.
  cbn -[classifyBackups] in Hp. rewrite app_nil_r in Hp. fold W in Hp.
  split.
  - eapply Permutation_NoDup; [apply Permutation_map; symmetry; exact Hp|].
    rewrite map_map. cbn [manifest]. rewrite picks_key_map. apply picks_keys.
  - rewrite (Permutation_length Hp), length_map. apply firstn_le_length.
Qed.

(** Phase 2: weeks are served newest key first: when a weekly record has
    week key [k], every week with a larger key that holds a backup without
    a daily record has a weekly record too. *)
Theorem classify_weekly_newest (B : list BackupManifest) (C : GFSConfig) m r m' :
  In (mkTiered m Weekly r) (classifyBackups B C) -> In m' B ->
  ~ (exists t, In t (classifyBackups B C) /\ tier t = Daily /\ id (manifest t) = id m') ->
  str_lt (weekKey m) (weekKey m') ->
  exists m'', In (mkTiered m'' Weekly ("week " ++ weekKey m')) (classifyBackups B C) /\
              weekKey m'' = weekKey m'.
Proof.
  intros H Hm' Hnd Hlt. apply weekly_rec in H as (k & Hk & _).
  destruct (picks_spec _ _ _ k m Hk) as (Ek & _ & _). subst k.
  assert (HL : In m' (unassigned (map id (firstn (daily C) (sort_by desc_time B)))
                                 (sort_by desc_time B))).
  { apply in_unassigned. split.
    - eapply Permutation_in; [symmetry; apply sort_by_perm | exact Hm'].
    - rewrite daily_ids. exact Hnd. }
  destruct (picks_newest _ _ _ _ _ _ Hk HL Hlt) as [c Hc].
  destruct (picks_spec _ _ _ _ c Hc) as (Ec & _ & _).
  exists c. split; [apply weekly_rec; eauto | symmetry; exact Ec].
Qed.

Lemma classify_weekly_newest_witness :
  exists m'', In (mkTiered m'' Weekly ("week " ++ weekKey wc)) (classifyBackups spread (cfg 1 2 0)) /\
              weekKey m'' = weekKey wc.
Proof.
  apply (classify_weekly_newest spread (cfg 1 2 0) wa "week 2025-W02" wc).
  - vm_compute; repeat (first [left; reflexivity | right]).
  - vm_compute; repeat (first [left; reflexivity | right]).
  - intros (t & Ht & Et & Ei). vm_compute in Ht.
    destruct Ht as [<-|[<-|[<-|[<-|[]]]]]; vm_compute in Et, Ei; discriminate.
  - vm_compute. reflexivity.
Defined.


(** Phase 3: a monthly record names the month key of its backup, belongs
    to a backup with no daily or weekly record, and that backup is the
    oldest of the backups of its month with no daily or weekly record. *)
Theorem classify_monthly_oldest (B : list BackupManifest) (C : GFSConfig) m r :
  In (mkTiered m Monthly r) (classifyBackups B C) ->
  r = ("month " ++ monthKey m)%string /\ In m B /\
  ~ (exists t, In t (classifyBackups B C) /\ (tier t = Daily \/ tier t = Weekly) /\
               id (manifest t) = id m) /\
  forall m', In m' B ->
    ~ (exists t, In t (classifyBackups B C) /\ (tier t = Daily \/ tier t = Weekly) /\
                 id (manifest t) = id m') ->
    monthKey m' = monthKey m -> time m <= time m'.
Proof.
  intro H. apply monthly_rec in H as (k & Hk & ->).
  destruct (picks_spec _ _ _ k m Hk) as (-> & HmL & Hmin).
  apply in_unassigned in HmL as [Hms Hnd].
  split; [reflexivity|]. split.
  { eapply Permutation_in; [apply sort_by_perm | exact Hms]. }
  split; [rewrite <- dw_ids; exact Hnd|].
  intros m' Hm' Hnd' Ek. apply Hmin; [|exact Ek].
  apply in_unassigned. split.
  - eapply Permutation_in; [symmetry; apply sort_by_perm | exact Hm'].
  - rewrite dw_ids. exact Hnd'.
Qed.

Lemma classify_monthly_oldest_witness :
  In (mkTiered wa Monthly "month 2025-01") (classifyBackups spread (cfg 1 0 2)) /\
  ("month 2025-01" = "month " ++ monthKey wa)%string /\ In wa spread /\
  ~ (exists t, In t (classifyBackups spread (cfg 1 0 2)) /\
               (tier t = Daily \/ tier t = Weekly) /\ id (manifest t) = id wa) /\
  forall m', In m' spread ->
    ~ (exists t, In t (classifyBackups spread (cfg 1 0 2)) /\
                 (tier t = Daily \/ tier t = Weekly) /\ id (manifest t) = id m') ->
    monthKey m' = monthKey wa -> time wa <= time m'.
Proof.
  assert (H : In (mkTiered wa Monthly "month 2025-01") (classifyBackups spread (cfg 1 0 2))).
  { vm_compute; repeat (first [left; reflexivity | right]). }
  split; [exact H|]. exact (classify_monthly_oldest spread (cfg 1 0 2) wa _ H).
Defined.

(** Phase 3: no two monthly records share a month key, and there are at
    most [monthly] of them. *)
Theorem classify_monthly_keys (B : list BackupManifest) (C : GFSConfig) :
  let M := filter (fun t => match tier t with Monthly => true | _ => false end)
                  (classifyBackups B C) in
  NoDup (map (fun t => monthKey (manifest t)) M) /\ (List.length M <= monthly C)%nat.
Proof.
  intro M.
  pose proof (filter_tier_parts B C (fun x => match x with Monthly => true | _ => false end)) as Hp.
  cbn -[classifyBackups] in Hp. rewrite app_nil_r in Hp. fold M in Hp.
  split.
  - eapply Permutation_NoDup; [apply Permutation_map; symmetry; exact Hp|].
    rewrite map_map. cbn [manifest]. rewrite picks_key_map. apply picks_keys.
  - rewrite (Permutation_length Hp), length_map. apply firstn_le_length.
Qed.

(** Phase 3: months are served newest key first: when a monthly record
    has month key [k], every month with a larger key that holds a backup
    without a daily or weekly record has a monthly record too. *)
Theorem classify_monthly_newest (B : list BackupManifest) (C : GFSConfig) m r m' :
  In (mkTiered m Monthly r) (classifyBackups B C) -> In m' B ->
  ~ (exists t, In t (classifyBackups B C) /\ (tier t = Daily \/ tier t = Weekly) /\
               id (manifest t) = id m') ->
  str_lt (monthKey m) (monthKey m') ->
  exists m'', In (mkTiered m'' Monthly ("month " ++ monthKey m')) (classifyBackups B C) /\
              monthKey m'' = monthKey m'.
Proof.
  intros H Hm' Hnd Hlt. apply monthly_rec in H as (k & Hk & _).
  destruct (picks_spec _ _ _ k m Hk) as (Ek & _ & _). subst k.
  match type of Hk with In _ (firstn _ (sort_keys_desc (candidates (group_by _ ?L)))) =>
    assert (HL : In m' L) end.
  { apply in_unassigned. split.
    - eapply Permutation_in; [symmetry; apply sort_by_perm | exact Hm'].
    - rewrite dw_ids. exact Hnd. }
  destruct (picks_newest _ _ _ _ _ _ Hk HL Hlt) as [c Hc].
  destruct (picks_spec _ _ _ _ c Hc) as (Ec & _ & _).
  exists c. split; [apply monthly_rec; eauto | symmetry; exact Ec].
Qed.

Lemma classify_monthly_newest_witness :
  exists m'', In (mkTiered m'' Monthly ("month " ++ monthKey wd)) (classifyBackups spread (cfg 0 0 2)) /\
              monthKey m'' = monthKey wd.
Proof.
  apply (classify_monthly_newest spread (cfg 0 0 2) wa "month 2025-01" wd).
  - vm_compute; repeat (first [left; reflexivity | right]).
  - vm_compute; repeat (first [left; reflexivity | right]).
  - intros (t & Ht & Et & Ei). vm_compute in Ht.
    destruct Ht as [<-|[<-|[<-|[<-|[]]]]]; vm_compute in Et, Ei;
      destruct Et; discriminate.
  - vm_compute. reflexivity.
Defined.

(** When the daily count covers every backup, every backup is kept as
    daily and getBackupsToPrune returns nothing, whatever minKeep is. *)
Theorem daily_covers_all (B : list BackupManifest) (C : GFSConfig) (minKeep : Z) :
  (List.length B <= daily C)%nat ->
  Forall (fun t => tier t = Daily) (classifyBackups B C) /\
  getBackupsToPrune B C minKeep = [].
Proof.
  intro Hn.
  assert (HD : firstn (daily C) (sort_by desc_time B) = sort_by desc_time B).
  { apply firstn_all2. rewrite (Permutation_length (sort_by_perm _ B)). exact Hn. }
  assert (Hnil : forall a, unassigned (map id (sort_by desc_time B) ++ a) (sort_by desc_time B) = []).
  { intro a. remember (unassigned _ _) as u eqn:Eu. destruct u as [|x u]; [reflexivity|].
    exfalso. assert (Hx : In x (x :: u)) by (left; reflexivity). rewrite Eu in Hx.
    apply in_unassigned in Hx as [Hx Hni]. apply Hni, in_app_iff. left. apply in_map, Hx. }
  assert (Hnil0 : unassigned (map id (sort_by desc_time B)) (sort_by desc_time B) = []).
  { rewrite <- (app_nil_r (map id (sort_by desc_time B))). apply Hnil. }
  assert (Hall : Forall (fun t => tier t = Daily) (classifyBackups B C)).
  { pose proof (classify_parts B C) as Hp. cbv zeta in Hp. rewrite HD, Hnil0 in Hp.
    cbn [group_by fold_left candidates flat_map sort_keys_desc sort_by] in Hp.
    rewrite !firstn_nil in Hp. cbn [map] in Hp. rewrite !Hnil in Hp.
    cbn [group_by fold_left candidates flat_map sort_keys_desc sort_by] in Hp.
    rewrite !firstn_nil in Hp. cbn [map app] in Hp. rewrite app_nil_r in Hp.
    apply Forall_forall. intros t Ht. apply (Permutation_in _ Hp) in Ht.
    apply in_map_iff in Ht as [x [<- _]]. reflexivity. }
  split; [exact Hall|].
  destruct B as [|b B0]; [reflexivity|].
  assert (Hf : filter isPrunable (classifyBackups (b :: B0) C) = []).
  { rewrite Forall_forall in Hall. remember (filter _ _) as f eqn:Ef.
    destruct f as [|t f]; [reflexivity|]. exfalso.
    assert (Ht : In t (t :: f)) by (left; reflexivity). rewrite Ef in Ht.
    apply filter_In in Ht as [Ht Hp]. unfold isPrunable in Hp. rewrite (Hall t Ht) in Hp. discriminate. }
  unfold getBackupsToPrune. rewrite Hf. cbn [sort_by fold_left]. apply firstn_nil.
Qed.

Lemma daily_covers_all_witness :
  (List.length spread <= daily (cfg 4 0 0))%nat /\
  Forall (fun t => tier t = Daily) (classifyBackups spread (cfg 4 0 0)) /\
  getBackupsToPrune spread (cfg 4 0 0) 0 = [].
Proof.
  assert (H : (List.length spread <= daily (cfg 4 0 0))%nat) by (vm_compute; lia).
  split; [exact H | exact (daily_covers_all spread (cfg 4 0 0) 0 H)].
Defined.


(** getISOWeek implements the ISO 8601 rule for four-digit years: the
    week-numbering year is the UTC year of the Thursday of the instant's
    Monday-to-Sunday week, and the week number is that Thursday's
    zero-based day of the year, divided by 7, plus one. *)
Theorem getISOWeek_iso_rule (t : Z) :
  four_digit (getUTCFullYear (Some t)) = true ->
  four_digit (iso_year (getISOWeek (Some t))) = true ->
  let thursday := 7 * ((Day t + 3) / 7) in
  let Y := YearFromTime (thursday * msPerDay) in
  getISOWeek (Some t) =
    mkISOWeek (Some Y) (Some ((thursday - days_from_civil Y 1 1) / 7 + 1)).
Proof. exact (getISOWeek_thursday t). Qed.

Lemma getISOWeek_iso_rule_witness :
  four_digit (getUTCFullYear (Some (utc 2021 1 3 12 0 0))) = true /\
  four_digit (iso_year (getISOWeek (Some (utc 2021 1 3 12 0 0)))) = true /\
  getISOWeek (Some (utc 2021 1 3 12 0 0)) =
    mkISOWeek (Some (YearFromTime (7 * ((Day (utc 2021 1 3 12 0 0) + 3) / 7) * msPerDay)))
      (Some ((7 * ((Day (utc 2021 1 3 12 0 0) + 3) / 7)
              - days_from_civil (YearFromTime (7 * ((Day (utc 2021 1 3 12 0 0) + 3) / 7) * msPerDay)) 1 1)
             / 7 + 1)).
Proof.
  assert (H1 : four_digit (getUTCFullYear (Some (utc 2021 1 3 12 0 0))) = true)
    by (vm_compute; reflexivity).
  assert (H2 : four_digit (iso_year (getISOWeek (Some (utc 2021 1 3 12 0 0)))) = true)
    by (vm_compute; reflexivity).
  split; [exact H1|]. split; [exact H2|].
  exact (getISOWeek_iso_rule _ H1 H2).
Defined.

(** For four-digit years the week number lies in 1..53. *)
Theorem getISOWeek_week_bounds (t : Z) :
  four_digit (getUTCFullYear (Some t)) = true ->
  four_digit (iso_year (getISOWeek (Some t))) = true ->
  exists w, iso_week (getISOWeek (Some t)) = Some w /\ 1 <= w <= 53.
Proof.
  intros H1 H2. destruct (week_key_facts t H1 H2) as (y & w & E & _ & Hw).
  exists w. rewrite E. split; [reflexivity | exact Hw].
Qed.

Lemma getISOWeek_week_bounds_witness :
  exists w, iso_week (getISOWeek (Some (utc 2020 12 31 0 0 0))) = Some w /\ 1 <= w <= 53.
Proof.
  apply getISOWeek_week_bounds; vm_compute; reflexivity.
Defined.

(** For four-digit years two instants get the same ISO (year, week)
    exactly when they fall in the same Monday-to-Sunday UTC week. *)
Theorem getISOWeek_same_week (t1 t2 : Z) :
  four_digit (getUTCFullYear (Some t1)) = true ->
  four_digit (getUTCFullYear (Some t2)) = true ->
  four_digit (iso_year (getISOWeek (Some t1))) = true ->
  four_digit (iso_year (getISOWeek (Some t2))) = true ->
  getISOWeek (Some t1) = getISOWeek (Some t2) <-> (Day t1 + 3) / 7 = (Day t2 + 3) / 7.
Proof.
  intros A1 A2 B1 B2.
  pose proof (getISOWeek_thursday t1 A1 B1) as G1.
  pose proof (getISOWeek_thursday t2 A2 B2) as G2. cbv zeta in G1, G2.
  split.
  - intro E.
    pose proof (f_equal iso_year E) as EY. pose proof (f_equal iso_week E) as EW.
    rewrite G1, G2 in EY, EW. cbn [iso_year iso_week] in EY, EW.
    set (Y1 := YearFromTime _) in EY, EW. set (Y2 := YearFromTime _) in EY, EW.
    assert (EY' : Y1 = Y2) by congruence. rewrite <- EY' in EW.
    set (J := days_from_civil Y1 1 1) in EW.
    assert (EW' : (7 * ((Day t1 + 3) / 7) - J) / 7 + 1 = (7 * ((Day t2 + 3) / 7) - J) / 7 + 1)
      by congruence.
    clearbody J. clear -EW'. Z.div_mod_to_equations. lia.
  - intro E. rewrite G1, G2, E. reflexivity.
Qed.

Lemma getISOWeek_same_week_witness :
  getISOWeek (Some (utc 2025 12 29 0 0 0)) = getISOWeek (Some (utc 2026 1 4 23 0 0)) <->
  (Day (utc 2025 12 29 0 0 0) + 3) / 7 = (Day (utc 2026 1 4 23 0 0) + 3) / 7.
Proof.
  apply getISOWeek_same_week; vm_compute; reflexivity.
Defined.

(** The week key ["YYYY-Www"] of classifyBackups tells weeks apart: for
    four-digit years two instants get the same key exactly when they fall
    in the same Monday-to-Sunday UTC week. *)
Theorem weekKey_same_week (t1 t2 : Z) :
  four_digit (getUTCFullYear (Some t1)) = true ->
  four_digit (getUTCFullYear (Some t2)) = true ->
  four_digit (iso_year (getISOWeek (Some t1))) = true ->
  four_digit (iso_year (getISOWeek (Some t2))) = true ->
  weekKeyOf (getISOWeek (Some t1)) = weekKeyOf (getISOWeek (Some t2)) <->
  (Day t1 + 3) / 7 = (Day t2 + 3) / 7.
Proof.
  intros A1 A2 B1 B2. rewrite <- (getISOWeek_same_week t1 t2 A1 A2 B1 B2).
  destruct (week_key_facts t1 A1 B1) as (y1 & w1 & E1 & Hy1 & Hw1).
  destruct (week_key_facts t2 A2 B2) as (y2 & w2 & E2 & Hy2 & Hw2).
  rewrite E1, E2, <- str_cmp_eq_iff, weekKey_cmp by lia.
  rewrite then_cmp_eq. split.
  - intros [-> ->]. reflexivity.
  - intro E. injection E as -> ->. auto.
Qed.

Lemma weekKey_same_week_witness :
  weekKeyOf (getISOWeek (Some (utc 2025 12 29 0 0 0))) =
    weekKeyOf (getISOWeek (Some (utc 2026 1 4 23 0 0))) <->
  (Day (utc 2025 12 29 0 0 0) + 3) / 7 = (Day (utc 2026 1 4 23 0 0) + 3) / 7.
Proof.
  apply weekKey_same_week; vm_compute; reflexivity.
Defined.

(** The month key ["YYYY-MM"] of classifyBackups tells months apart: for
    four-digit years two instants get the same key exactly when they have
    the same UTC year and month. *)
Theorem monthKey_same_month (t1 t2 : Z) :
  four_digit (getUTCFullYear (Some t1)) = true ->
  four_digit (getUTCFullYear (Some t2)) = true ->
  getMonthKey (Some t1) = getMonthKey (Some t2) <->
  YearFromTime t1 = YearFromTime t2 /\ MonthFromTime t1 = MonthFromTime t2.
Proof.
  intros A1 A2.
  assert (B1 : 1000 <= YearFromTime t1 <= 9999).
  { cbn [getUTCFullYear option_map four_digit] in A1. apply andb_true_iff in A1 as [Ha Hb].
    apply Z.leb_le in Ha. apply Z.leb_le in Hb. lia. }
  assert (B2 : 1000 <= YearFromTime t2 <= 9999).
  { cbn [getUTCFullYear option_map four_digit] in A2. apply andb_true_iff in A2 as [Ha Hb].
    apply Z.leb_le in Ha. apply Z.leb_le in Hb. lia. }
  rewrite <- str_cmp_eq_iff, monthKey_cmp by assumption. apply then_cmp_eq.
Qed.

Lemma monthKey_same_month_witness :
  getMonthKey (Some (utc 2025 1 1 0 0 0)) = getMonthKey (Some (utc 2025 1 31 23 59 59)) <->
  YearFromTime (utc 2025 1 1 0 0 0) = YearFromTime (utc 2025 1 31 23 59 59) /\
  MonthFromTime (utc 2025 1 1 0 0 0) = MonthFromTime (utc 2025 1 31 23 59 59).
Proof.
  apply monthKey_same_month; vm_compute; reflexivity.
Defined.

End Extras.


(** Properties of the prune and list commands of src/cli.ts. *)
Module CommandExtras.
Import JSString GFS ListFacts ClassifyFacts TierFacts CLI CLIFacts MoreExamples Examples.

(** Age-based pruning puts every backup in exactly one of [toKeep] and
    [toDelete]. *)
Theorem agePlan_partition (B : list BackupManifest) (now retentionDays keepCount : Z) :
  let r := agePlan B now retentionDays keepCount in
  Permutation (snd r ++ map fst (fst r)) B.
Proof.
  intro r. unfold r, agePlan. rewrite age_fold_perm. reflexivity.
Qed.

(** Age-based pruning deletes only backups strictly older than the cutoff
    [now - retentionDays * 86400000], each with the reason
    ["older than <retentionDays> days"]. *)
Theorem agePlan_deletes_old (B : list BackupManifest) (now retentionDays keepCount : Z) :
  Forall (fun x => In (fst x) B /\ time (fst x) < now - retentionDays * 24 * 60 * 60 * 1000 /\
                   snd x = Some ("older than " ++ toString (Some retentionDays) ++ " days")%string)
         (fst (agePlan B now retentionDays keepCount)).
Proof.
  apply Forall_forall. intros x Hx. unfold agePlan in Hx.
  destruct (age_fold_deleted _ _ _ _ _ _ _ Hx) as [[]|(H1 & H2 & H3)]. auto.
Qed.

(** Age-based pruning keeps every backup taken at or after the cutoff. *)
Theorem agePlan_keeps_recent (B : list BackupManifest) (now retentionDays keepCount : Z) :
  Forall (fun m => now - retentionDays * 24 * 60 * 60 * 1000 <= time m ->
                   In m (snd (agePlan B now retentionDays keepCount))) B.
Proof.
  apply Forall_forall. intros m Hm Hc. apply age_fold_kept; assumption.
Qed.

(** Age-based pruning keeps at least [min(keepCount, |B|)] backups. *)
Theorem agePlan_keep_floor (B : list BackupManifest) (now retentionDays keepCount : Z) :
  Z.min keepCount (Z.of_nat (List.length B)) <=
  Z.of_nat (List.length (snd (agePlan B now retentionDays keepCount))).
Proof.
  pose proof (age_fold_floor (now - retentionDays * 24 * 60 * 60 * 1000) retentionDays
                keepCount B [] []) as H.
  exact H.
Qed.

(** On the newest-first list of listManifests, age-based pruning keeps a
    newest prefix and deletes the remaining, older backups: [toKeep]
    followed by the deleted backups is that list, in order. *)
Theorem agePlan_newest_prefix (B : list BackupManifest) (now retentionDays keepCount : Z) :
  let s := listSort B in
  let r := agePlan s now retentionDays keepCount in
  snd r ++ map fst (fst r) = s.
Proof.
  intros s r. unfold r, agePlan. rewrite age_fold_prefix; [reflexivity| |left; reflexivity].
  apply (sort_desc_sorted time B).
Qed.

(** With distinct ids, GFS pruning puts every backup in exactly one of
    [toKeep] and [toDelete], and every deletion carries the reason
    ["exceeds retention"]. *)
Theorem gfsPlan_partition (B : list BackupManifest) (g : GFSConfig) (keepCount : Z) :
  NoDup (map id B) ->
  Permutation (snd (gfsPlan B g keepCount) ++ map fst (fst (gfsPlan B g keepCount))) B /\
  Forall (fun x => snd x = Some "exceeds retention"%string) (fst (gfsPlan B g keepCount)).
Proof.
  intro Hid. split; [apply gfs_partition, Hid|].
  apply Forall_forall. intros x Hx. unfold gfsPlan in Hx. cbn [fst] in Hx.
  apply in_map_iff in Hx as [t [<- Ht]]. apply prune_in in Ht as [_ Ht].
  rewrite Ht. reflexivity.
Qed.

Lemma gfsPlan_partition_witness :
  NoDup (map id spread) /\
  Permutation (snd (gfsPlan spread (cfg 1 0 0) 0) ++ map fst (fst (gfsPlan spread (cfg 1 0 0) 0)))
              spread /\
  Forall (fun x => snd x = Some "exceeds retention"%string) (fst (gfsPlan spread (cfg 1 0 0) 0)).
Proof.
  assert (H : NoDup (map id spread)) by (vm_compute; repeat constructor; cbn; intuition discriminate).
  split; [exact H|]. exact (gfsPlan_partition spread (cfg 1 0 0) 0 H).
Defined.

(** With distinct ids, GFS pruning keeps at least [min(|B|, keepCount)]
    backups. *)
Theorem gfsPlan_keep_floor (B : list BackupManifest) (g : GFSConfig) (keepCount : Z) :
  NoDup (map id B) ->
  Z.min (Z.of_nat (List.length B)) keepCount <= Z.of_nat (List.length (snd (gfsPlan B g keepCount))).
Proof.
  intro Hid. pose proof (Permutation_length (gfs_partition B g keepCount Hid)) as Hl.
  rewrite length_app, length_map in Hl.
  destruct (prune_parts B g keepCount) as [_ [_ Hc]].
  unfold gfsPlan in Hl at 2. cbn [fst] in Hl. rewrite length_map in Hl. lia.
Qed.

Lemma gfsPlan_keep_floor_witness :
  NoDup (map id spread) /\
  Z.min (Z.of_nat (List.length spread)) 3 <=
    Z.of_nat (List.length (snd (gfsPlan spread (cfg 0 0 0) 3))).
Proof.
  assert (H : NoDup (map id spread)) by (vm_compute; repeat constructor; cbn; intuition discriminate).
  split; [exact H|]. exact (gfsPlan_keep_floor spread (cfg 0 0 0) 3 H).
Defined.

(** With distinct ids, GFS pruning never deletes a backup that
    classifyBackups places in the daily, weekly or monthly tier. *)
Theorem gfsPlan_keeps_retained (B : list BackupManifest) (g : GFSConfig) (keepCount : Z) :
  NoDup (map id B) ->
  Forall (fun r => tier r <> Prunable -> In (manifest r) (snd (gfsPlan B g keepCount)))
         (classifyBackups B g).
Proof.
  intro Hid. apply Forall_forall. intros r Hr Ht.
  rewrite gfs_toKeep_unassigned. apply in_unassigned. split; [apply (classify_manifest_in _ _ _ Hr)|].
  rewrite gfs_fst, map_map. intro Hi. apply in_map_iff in Hi as [t [Et Hrt]].
  apply prune_in in Hrt as [Htc Hp].
  assert (Hc : NoDup (map (fun x => id (manifest x)) (classifyBackups B g))).
  { rewrite <- map_map. eapply Permutation_NoDup; [|exact Hid].
    apply Permutation_map. symmetry. apply classify_perm, Hid. }
  assert (E : t = r) by exact (NoDup_map_eq _ _ _ _ Hc Htc Hr Et).
  subst t. apply Ht. rewrite Hp. reflexivity.
Qed.

Lemma gfsPlan_keeps_retained_witness :
  NoDup (map id spread) /\
  Forall (fun r => tier r <> Prunable -> In (manifest r) (snd (gfsPlan spread (cfg 1 1 1) 0)))
         (classifyBackups spread (cfg 1 1 1)).
Proof.
  assert (H : NoDup (map id spread)) by (vm_compute; repeat constructor; cbn; intuition discriminate).
  split; [exact H|]. exact (gfsPlan_keeps_retained spread (cfg 1 1 1) 0 H).
Defined.

(** With distinct ids the prune command, GFS or age-based, splits the
    backups into [toKeep] and [toDelete] and keeps at least
    [min(keepCount, |B|)] of them, where [keepCount] is [--keep] when
    given and [config.retention.minKeep] otherwise. *)
Theorem prunePlan_partition_floor (B : list BackupManifest) (now : Z) (R : RetentionConfig)
    (optKeep optDays : option Z) :
  NoDup (map id B) ->
  let keepCount := match optKeep with Some k => k | None => minKeep R end in
  let r := prunePlan B now R optKeep optDays in
  Permutation (snd r ++ map fst (fst r)) B /\
  Z.min keepCount (Z.of_nat (List.length B)) <= Z.of_nat (List.length (snd r)).
Proof.
  intros Hid keepCount r. unfold r, prunePlan. fold keepCount.
  set (d := match optDays with Some d => _ | None => _ end).
  assert (Ha : Permutation (snd (agePlan B now d keepCount) ++ map fst (fst (agePlan B now d keepCount))) B /\
               Z.min keepCount (Z.of_nat (List.length B)) <=
               Z.of_nat (List.length (snd (agePlan B now d keepCount)))).
  { split; [unfold agePlan; rewrite age_fold_perm; reflexivity|].
    exact (age_fold_floor (now - d * 24 * 60 * 60 * 1000) d keepCount B [] []). }
  destruct (gfs R) as [g|]; [|exact Ha].
  destruct (enabled g); [|exact Ha].
  split; [apply gfs_partition, Hid|].
  pose proof (Permutation_length (gfs_partition B g keepCount Hid)) as Hl.
  rewrite length_app, length_map in Hl.
  destruct (prune_parts B g keepCount) as [_ [_ Hc]].
  unfold gfsPlan in Hl at 2. cbn [fst] in Hl. rewrite length_map in Hl. lia.
Qed.

Lemma prunePlan_partition_floor_witness :
  NoDup (map id spread) /\
  Permutation (snd (prunePlan spread (utc 2025 3 1 0 0 0) (mkRetention 30 2 None) None (Some 0))
               ++ map fst (fst (prunePlan spread (utc 2025 3 1 0 0 0) (mkRetention 30 2 None) None (Some 0))))
              spread /\
  Z.min 2 (Z.of_nat (List.length spread)) <=
    Z.of_nat (List.length (snd (prunePlan spread (utc 2025 3 1 0 0 0) (mkRetention 30 2 None) None (Some 0)))).
Proof.
  assert (H : NoDup (map id spread)) by (vm_compute; repeat constructor; cbn; intuition discriminate).
  split; [exact H|].
  exact (prunePlan_partition_floor spread (utc 2025 3 1 0 0 0) (mkRetention 30 2 None) None (Some 0) H).
Defined.

(** Without GFS, the prune command deletes only backups older than
    [now - days * 86400000], where [days] is [--days] unless it is absent
    or [0], in which case it is [config.retention.days]. *)
Theorem prunePlan_age_cutoff (B : list BackupManifest) (now : Z) (R : RetentionConfig)
    (optKeep optDays : option Z) :
  match gfs R with Some g => enabled g = false | None => True end ->
  let days := match optDays with
              | Some d => if d =? 0 then days R else d
              | None => days R
              end in
  Forall (fun x => time (fst x) < now - days * 24 * 60 * 60 * 1000)
         (fst (prunePlan B now R optKeep optDays)).
Proof.
  intros Hg dd. apply Forall_forall. intros x Hx.
  unfold prunePlan in Hx. fold dd in Hx.
  assert (Ha : In x (fst (agePlan B now dd (match optKeep with Some k => k | None => minKeep R end)))).
  { destruct (gfs R) as [g|]; [rewrite Hg in Hx|]; exact Hx. }
  unfold agePlan in Ha. destruct (age_fold_deleted _ _ _ _ _ _ _ Ha) as [[]|(_ & H & _)].
  exact H.
Qed.

Lemma prunePlan_age_cutoff_witness :
  True /\
  Forall (fun x => time (fst x) < utc 2025 3 1 0 0 0 - 30 * 24 * 60 * 60 * 1000)
         (fst (prunePlan spread (utc 2025 3 1 0 0 0) (mkRetention 30 1 None) None (Some 0))).
Proof.
  split; [exact I|].
  exact (prunePlan_age_cutoff spread (utc 2025 3 1 0 0 0) (mkRetention 30 1 None) None (Some 0) I).
Defined.

(** The list command's tier map has an entry exactly for the ids of the
    listed backups when GFS is enabled, and no entry otherwise. *)
Theorem tierMap_domain (B : list BackupManifest) (gfsConfig : option GFSConfig) (k : string) :
  map_get k (tierMapOf B gfsConfig) <> None <->
  (exists g, gfsConfig = Some g /\ enabled g = true) /\ In k (map id B).
Proof.
  unfold tierMapOf. destruct gfsConfig as [g|];
    [destruct (enabled g) eqn:Eg|]; cbn [map_get];
    [|split; [intro H; exfalso; apply H; reflexivity | intros [(g' & E & Ee) _]; congruence]
     |split; [intro H; exfalso; apply H; reflexivity | intros [(g' & E & _) _]; discriminate E]].
  rewrite (map_fold_domain (fun c => id (manifest c)) (fun c => (tier c, tierReason c))).
  split.
  - intro H. split; [exists g; split; [reflexivity | exact Eg]|].
    apply in_map_iff in H as [r [<- Hr]]. apply in_map, (classify_manifest_in _ _ _ Hr).
  - intros [_ H]. apply in_map_iff in H as [m [<- Hm]].
    destruct (classify_ids_cover B g m Hm) as (r & Hr & E).
    rewrite <- E. apply (in_map (fun c => id (manifest c))), Hr.
Qed.

(** With GFS enabled and distinct ids, the list command's tier map gives
    each listed backup the tier and reason of its record in
    classifyBackups. *)
Theorem tierMap_lookup (B : list BackupManifest) (g : GFSConfig) :
  NoDup (map id B) -> enabled g = true ->
  Forall (fun m => exists r, In r (classifyBackups B g) /\ manifest r = m /\
                             map_get (id m) (tierMapOf B (Some g)) = Some (tier r, tierReason r)) B.
Proof.
  intros Hid Eg. apply Forall_forall. intros m Hm.
  assert (Hp := classify_perm B g Hid).
  apply (Permutation_in _ (Permutation_sym Hp)) in Hm.
  apply in_map_iff in Hm as [r [<- Hr]].
  exists r. split; [exact Hr|]. split; [reflexivity|].
  unfold tierMapOf. rewrite Eg.
  apply (map_fold_in (fun c => id (manifest c)) (fun c => (tier c, tierReason c))); [|exact Hr].
  rewrite <- map_map. eapply Permutation_NoDup; [|exact Hid].
  apply Permutation_map. symmetry. exact Hp.
Qed.

Lemma tierMap_lookup_witness :
  NoDup (map id spread) /\ enabled (cfg 1 1 1) = true /\
  Forall (fun m => exists r, In r (classifyBackups spread (cfg 1 1 1)) /\ manifest r = m /\
             map_get (id m) (tierMapOf spread (Some (cfg 1 1 1))) = Some (tier r, tierReason r))
         spread.
Proof.
  assert (H : NoDup (map id spread)) by (vm_compute; repeat constructor; cbn; intuition discriminate).
  split; [exact H|]. split; [reflexivity|].
  exact (tierMap_lookup spread (cfg 1 1 1) H eq_refl).
Defined.

End CommandExtras.
